(** * GlobalHandlers: the [onerror] / [onunhandledrejection] integration

    A shallow embedding of [packages/browser/src/integrations/globalhandlers.ts]
    and the properties of its hook installation, failure normalisation and
    event construction. *)

From Stdlib Require Import List String Ascii Bool Arith ZArith Lia.
From Stdlib Require Import Sorting.Permutation Sorting.Sorted.
From Stdlib Require Import Numbers.DecimalString.
Import ListNotations.
Local Open Scope string_scope.
Local Open Scope list_scope.

Set Implicit Arguments.

(** ** JavaScript values

    Strings are sequences of code units below 256 (one [ascii] each); a
    string with a code unit from 256 on, such as the line separators U+2028
    and U+2029, is not among them.  Numbers are the integer-valued ones, and
    those the language holds exactly and prints in full are the safe
    integers, up to 2^53 - 1 in magnitude.  An object carries its class tag
    (what [Object.prototype.toString] reports) and its property table.  A
    property that is the object's own and enumerable is a data property
    holding a value, or an accessor whose getter throws the given value; a
    hidden property reads the same way but is inherited or not enumerable,
    so [in] sees it and [Object.keys] does not list it. *)

Inductive ObjClass := ClsError | ClsErrorEvent | ClsObject.

Inductive Value :=
| VUndefined
| VNull
| VBool (b : bool)
| VNum (n : Z)
| VStr (s : string)
| VSymbol (description : string)
| VObj (cls : ObjClass) (props : list (string * Slot))
with Slot :=
| Data (v : Value)
| Accessor (throws : Value)
| Hidden (v : Value)
| HiddenAccessor (throws : Value).

Definition PropTable := list (string * Slot).

(** ** Completions: a normal result or a thrown value *)

Inductive Result (A : Type) :=
| Ok (a : A)
| Throw (exn : Value).
Arguments Ok {A} a.
Arguments Throw {A} exn.

(** An error object has its [name] from the prototype and a [message] that
    is not enumerable. *)
Definition TypeError (msg : string) : Value :=
  VObj ClsError [("name", Hidden (VStr "TypeError")); ("message", Hidden (VStr msg))].

Module Js.

(** ToBoolean. *)
Definition truthy (v : Value) : bool :=
  match v with
  | VUndefined | VNull => false
  | VBool b => b
  | VNum n => negb (n =? 0)%Z
  | VStr s => negb (s =? "")
  | VSymbol _ => true
  | VObj _ _ => true
  end.

Fixpoint lookup (k : string) (ps : PropTable) : option Slot :=
  match ps with
  | [] => None
  | (k', s) :: ps' => if k =? k' then Some s else lookup k ps'
  end.

(** [v.k]: throws on [undefined] and [null], runs the getter of an
    accessor, and is [undefined] for a property that is not there. *)
Definition get (v : Value) (k : string) : Result Value :=
  match v with
  | VUndefined | VNull => Throw (TypeError ("Cannot read property " ++ k))
  | VObj _ ps =>
      match lookup k ps with
      | Some (Data x) | Some (Hidden x) => Ok x
      | Some (Accessor exn) | Some (HiddenAccessor exn) => Throw exn
      | None => Ok VUndefined
      end
  | _ => Ok VUndefined
  end.

(** [k in v]: a TypeError unless [v] is an object. *)
Definition has (k : string) (v : Value) : Result bool :=
  match v with
  | VObj _ ps => Ok (match lookup k ps with Some _ => true | None => false end)
  | _ => Throw (TypeError "Cannot use 'in' operator")
  end.

(** The properties [Object.keys] lists: the own enumerable ones. *)
Definition listed (s : Slot) : bool :=
  match s with
  | Data _ | Accessor _ => true
  | Hidden _ | HiddenAccessor _ => false
  end.

(** [Object.keys]. *)
Definition keys (v : Value) : list string :=
  match v with
  | VObj _ ps => map fst (filter (fun p => listed (snd p)) ps)
  | _ => []
  end.

(** Strict equality with the literal [true]. *)
Definition is_true (v : Value) : bool :=
  match v with
  | VBool true => true
  | _ => false
  end.

Definition string_of_Z (n : Z) : string := NilZero.string_of_int (Z.to_int n).

Definition MAX_SAFE_INTEGER : Z := 9007199254740991.

(** ToString, as a template literal applies it.  A symbol throws.  A safe
    integer is printed in full; how a number beyond them is printed (the
    exponent form from 1e21 on) is left to [Number_toString].  The object
    case renders the class tag; the code only stringifies primitives. *)
Definition toString (Number_toString : Z -> string) (v : Value) : Result string :=
  match v with
  | VUndefined => Ok "undefined"
  | VNull => Ok "null"
  | VBool true => Ok "true"
  | VBool false => Ok "false"
  | VNum n =>
      if (Z.abs n <=? MAX_SAFE_INTEGER)%Z then Ok (string_of_Z n)
      else Ok (Number_toString n)
  | VStr s => Ok s
  | VSymbol _ => Throw (TypeError "Cannot convert a Symbol value to a string")
  | VObj _ _ => Ok "[object Object]"
  end.

End Js.

(** ** The type predicates

    The integration imports them from the utilities package, which is not
    among the sources at hand. *)

(** Modelled from the spec: [isString] of the utilities package; sections
    4.2 and 4.4 ask whether the message "is a string". *)
Definition isString (wat : Value) : bool :=
  match wat with VStr _ => true | _ => false end.

(** Modelled from the spec: [isPrimitive] of the utilities package; section
    4.5: "a primitive value (not an object/array)". *)
Definition isPrimitive (wat : Value) : bool :=
  match wat with VObj _ _ => false | _ => true end.

(** Modelled from the spec: [isError] of the utilities package; section 4.2:
    the value "behaves as a structured failure object". *)
Definition isError (wat : Value) : bool :=
  match wat with VObj ClsError _ => true | _ => false end.

(** Modelled from the spec: [isErrorEvent] of the utilities package; section
    4.2: the value is "an event-like wrapper" with a nested [error] and
    [message]. *)
Definition isErrorEvent (wat : Value) : bool :=
  match wat with VObj ClsErrorEvent _ => true | _ => false end.

(** ** Regular expressions

    A backtracking matcher for the fragment [ERROR_TYPES_RE] is written in:
    literals, character sets, concatenation, ordered alternation, the greedy
    optional, the greedy [.*], capture groups and the two anchors. *)

Module Regex.

Inductive regex :=
| Eps
| Chr (c : ascii)
| Cls (cs : list ascii)
| Cat (r s : regex)
| Alt (r s : regex)
| Opt (r : regex)
| DotStar
| Grp (n : nat) (r : regex)
| Bol
| Eol.

Fixpoint Lit (s : string) : regex :=
  match s with
  | EmptyString => Eps
  | String c s' => Cat (Chr c) (Lit s')
  end.

(** Where the matcher stands: how many code units are behind it and which
    are ahead. *)
Record cursor := Cursor { pos : nat; rest : list ascii }.

Definition Captures := list (nat * string).

(** [.] matches anything but a line terminator.  Of the four line
    terminators, the line feed and the carriage return are the ones below
    256; U+2028 and U+2029, at which [.] stops as well, do not occur in the
    strings modelled here. *)
Definition isLineTerminator (c : ascii) : bool :=
  (c =? "010")%char || (c =? "013")%char.

Section Matcher.
Variable R : Type.

(** Greedy [.*]: take as many as possible, give back one at a time. *)
Fixpoint dotStar (p : nat) (s : list ascii) (k : cursor -> option R) : option R :=
  match s with
  | c :: s' =>
      if isLineTerminator c then k (Cursor p s)
      else match dotStar (S p) s' k with
           | Some r => Some r
           | None => k (Cursor p s)
           end
  | [] => k (Cursor p [])
  end.

Fixpoint run (r : regex) (cur : cursor) (caps : Captures)
         (k : cursor -> Captures -> option R) : option R :=
  match r with
  | Eps => k cur caps
  | Chr c =>
      match rest cur with
      | c' :: s' => if (c =? c')%char then k (Cursor (S (pos cur)) s') caps else None
      | [] => None
      end
  | Cls cs =>
      match rest cur with
      | c' :: s' =>
          if existsb (fun c => (c =? c')%char) cs
          then k (Cursor (S (pos cur)) s') caps else None
      | [] => None
      end
  | Cat a b => run a cur caps (fun cur' caps' => run b cur' caps' k)
  | Alt a b =>
      match run a cur caps k with
      | Some x => Some x
      | None => run b cur caps k
      end
  | Opt a =>
      match run a cur caps k with
      | Some x => Some x
      | None => k cur caps
      end
  | DotStar => dotStar (pos cur) (rest cur) (fun cur' => k cur' caps)
  | Grp n a =>
      run a cur caps
          (fun cur' caps' =>
             let text := string_of_list_ascii
                           (firstn (pos cur' - pos cur) (rest cur)) in
             k cur' ((n, text) :: caps'))
  | Bol => if Nat.eqb (pos cur) 0 then k cur caps else None
  | Eol => match rest cur with [] => k cur caps | _ => None end
  end.
End Matcher.

(** A match attempt at every start position, leftmost first. *)
Fixpoint search (r : regex) (p : nat) (s : list ascii) : option Captures :=
  match run r (Cursor p s) [] (fun _ caps => Some caps) with
  | Some caps => Some caps
  | None =>
      match s with
      | [] => None
      | _ :: s' => search r (S p) s'
      end
  end.

Fixpoint group (n : nat) (caps : Captures) : Value :=
  match caps with
  | [] => VUndefined
  | (m, text) :: caps' => if Nat.eqb n m then VStr text else group n caps'
  end.

(** [s.match(r)] for a regular expression without the global flag: the
    capture groups, or nothing. *)
Definition String_match (s : string) (r : regex) : option Captures :=
  search r 0 (list_ascii_of_string s).

End Regex.

(** ** The data model: traces and events *)

Record Frame := {
  fr_args : list Value;
  fr_column : Value;
  fr_func : string;
  fr_line : Value;
  fr_url : Value
}.

(** [TraceKitStackTrace].  [st_message] is typed as a string in the source
    but may hold anything at run time; [st_name] and [st_original] are
    [undefined] when absent. *)
Record StackTrace := {
  st_mechanism : string;
  st_message : Value;
  st_mode : string;
  st_name : Value;
  st_stack : list Frame;
  st_original : Value
}.

Definition set_mechanism (st : StackTrace) (m : string) : StackTrace :=
  {| st_mechanism := m; st_message := st_message st; st_mode := st_mode st;
     st_name := st_name st; st_stack := st_stack st; st_original := st_original st |}.

Definition set_message (st : StackTrace) (m : Value) : StackTrace :=
  {| st_mechanism := st_mechanism st; st_message := m; st_mode := st_mode st;
     st_name := st_name st; st_stack := st_stack st; st_original := st_original st |}.

Inductive Severity :=
| Severity_Fatal
| Severity_Error
| Severity_Warning
| Severity_Log
| Severity_Info
| Severity_Debug
| Severity_Critical.

Record Mechanism := {
  mech_data : list (string * Value);
  mech_handled : bool;
  mech_type : string
}.

(** An exception entry; [undefined] stands for a type or value that is not
    set. *)
Record ExceptionValue := {
  ex_type : Value;
  ex_value : Value;
  ex_stacktrace : option (list Frame);
  ex_mechanism : option Mechanism
}.

(** [ev_values] is [event.exception.values]; the empty list also stands for
    an event that has no [exception] yet. *)
Record Event := {
  ev_level : option Severity;
  ev_values : list ExceptionValue;
  ev_extra : list (string * Value)
}.

(** ** Function objects and the state the integration works on *)

Inductive Callable :=
| HostFunction (id : nat)
| OnErrorWrapper
| OnUnhandledRejectionWrapper.

(** A handler slot holds a function or [null]. *)
Definition HandlerSlot := option Callable.

Record GlobalHandlersIntegrations := {
  opt_onerror : bool;
  opt_onunhandledrejection : bool
}.

Record GlobalHandlers := {
  _options : GlobalHandlersIntegrations;
  _oldOnErrorHandler : HandlerSlot;
  _oldOnUnhandledRejectionHandler : HandlerSlot;
  _onErrorHandlerInstalled : bool;
  _onUnhandledRejectionHandlerInstalled : bool
}.

(** The global object, with the [stackTraceLimit] of its [Error]
    constructor ([None]: not set). *)
Record Window := {
  onerror : HandlerSlot;
  onunhandledrejection : HandlerSlot;
  Error_stackTraceLimit : option Z
}.

Record State := {
  instance : GlobalHandlers;
  _global : Window
}.

(** What a hook invocation reads from its surroundings: whether the current
    hub still has this integration, the [maxValueLength] option of the hub's
    client (if there is a client, and if the option is set), the answer of
    [shouldIgnoreOnError], and [getLocationHref]. *)
Record Env := {
  hasIntegration : bool;
  client_maxValueLength : option (option Z);
  shouldIgnoreOnError : bool;
  getLocationHref : string
}.

(** The calls a hook makes to the outside, in the order it makes them. *)
Inductive Effect :=
| CaptureEvent (event : Event) (hint_stack : StackTrace) (originalException : Value)
| Apply (f : Callable) (arguments : list Value)
| LoggerLog (msg : string)
| AssignStackTraceLimit (n : Z).

(** ** Effectful code: a log of effects and a completion *)

Definition M (A : Type) : Type := (list Effect * Result A)%type.

Definition ret {A} (a : A) : M A := ([], Ok a).

Definition bind {A B} (m : M A) (f : A -> M B) : M B :=
  match m with
  | (l, Ok a) => let (l', r) := f a in (l ++ l', r)
  | (l, Throw x) => (l, Throw x)
  end.

Definition lift {A} (r : Result A) : M A := ([], r).

Definition emit (e : Effect) : M unit := ([e], Ok tt).

Definition effects {A} (m : M A) : list Effect := fst m.
Definition completion {A} (m : M A) : Result A := snd m.

Definition rbind {A B} (r : Result A) (f : A -> Result B) : Result B :=
  match r with
  | Ok a => f a
  | Throw x => Throw x
  end.

Declare Scope js_scope.
Delimit Scope js_scope with js.
Notation "x <- m ;; k" := (bind m (fun x => k))
  (at level 61, m at next level, right associativity) : js_scope.
Notation "m ;;; k" := (bind m (fun _ => k))
  (at level 61, right associativity) : js_scope.
Notation "x <~ r ;; k" := (rbind r (fun x => k))
  (at level 61, r at next level, right associativity) : js_scope.

(** ** The collaborators

    Functions the integration imports and this file leaves open: the stack
    computation, the conversion of a trace into an event, the sanitising and
    truncating utilities, and what a function object of the host does when
    it is applied.  [Number_toString] is the language's own: how it prints a
    number that is not a safe integer. *)

Class Collaborators := {
  _computeStackTrace : Value -> StackTrace;
  eventFromStacktrace : StackTrace -> Event;
  normalize : Value -> Value;
  normalizeToSize : Value -> Value;
  JSON_stringify : Value -> string;
  truncate : string -> Z -> string;
  keysToEventMessage : list string -> string;
  Function_apply : Callable -> list Value -> Result Value;
  Number_toString : Z -> string
}.

(** ** The integration *)

Section Integration.

Context {C : Collaborators}.
Local Open Scope js_scope.

Definition UNKNOWN_FUNCTION : string := "?".

(** The pattern, written with its pieces apart:
    [^] [(?:[Uu]ncaught (?:exception: )?)?]
    [(?:((?:Eval|Internal|Range|Reference|Syntax|Type|URI|)Error): )?]
    [( .* )] [$].
    Group 1 is the label, group 2 the remaining text. *)
Definition ERROR_TYPES_RE : Regex.regex :=
  let Cat := Regex.Cat in
  let Alt := Regex.Alt in
  let Lit := Regex.Lit in
  Cat Regex.Bol
 (Cat (Regex.Opt (Cat (Regex.Cls ["U"; "u"]%char)
                 (Cat (Lit "ncaught ")
                      (Regex.Opt (Lit "exception: ")))))
 (Cat (Regex.Opt (Cat (Regex.Grp 1
                        (Cat (Alt (Lit "Eval")
                             (Alt (Lit "Internal")
                             (Alt (Lit "Range")
                             (Alt (Lit "Reference")
                             (Alt (Lit "Syntax")
                             (Alt (Lit "Type")
                             (Alt (Lit "URI")
                                  Regex.Eps)))))))
                             (Lit "Error")))
                      (Lit ": ")))
 (Cat (Regex.Grp 2 Regex.DotStar)
      Regex.Eol))).

(** *** [_eventFromIncompleteRejection] *)

Fixpoint insert_sorted (k : string) (ks : list string) : list string :=
  match ks with
  | [] => [k]
  | k' :: ks' => if String.leb k k' then k :: ks else k' :: insert_sorted k ks'
  end.

(** [Array.prototype.sort] without a comparator, on strings: ascending by
    code units. *)
Definition Array_sort (ks : list string) : list string :=
  fold_right insert_sorted [] ks.

(** The [data] of a mechanism: [mode] always, [message] and [name] when
    truthy. *)
Definition mechanism_data (stacktrace : StackTrace) : list (string * Value) :=
  [("mode", VStr (st_mode stacktrace))]
    ++ (if Js.truthy (st_message stacktrace)
        then [("message", st_message stacktrace)] else [])
    ++ (if Js.truthy (st_name stacktrace)
        then [("name", st_name stacktrace)] else []).

Definition with_mechanism (v : ExceptionValue) (m : Mechanism) : ExceptionValue :=
  {| ex_type := ex_type v; ex_value := ex_value v;
     ex_stacktrace := ex_stacktrace v; ex_mechanism := Some m |}.

Definition _eventFromIncompleteRejection
           (stacktrace : StackTrace) (handler : string) (error : Value)
  : Result Event :=
  event <~ (if isPrimitive error then
              s <~ Js.toString Number_toString error ;;
              Ok {| ev_level := Some Severity_Error;
                    ev_values :=
                      [ {| ex_type := VStr "UnhandledRejection";
                           ex_value := VStr ("Non-Error promise rejection captured with value: " ++ s);
                           ex_stacktrace := None;
                           ex_mechanism := None |} ];
                    ev_extra := [] |}
            else
              Ok {| ev_level := Some Severity_Error;
                    ev_values :=
                      [ {| ex_type := VStr "UnhandledRejection";
                           ex_value := VStr ("Non-Error promise rejection captured with keys: "
                                               ++ keysToEventMessage (Array_sort (Js.keys error)));
                           ex_stacktrace := None;
                           ex_mechanism := None |} ];
                    ev_extra := [("__serialized__", normalizeToSize error)] |}) ;;
  match ev_values event with
  | first :: others =>
      Ok {| ev_level := ev_level event;
            ev_values :=
              with_mechanism first
                {| mech_data := mechanism_data stacktrace;
                   mech_handled := false;
                   mech_type := handler |} :: others;
            ev_extra := ev_extra event |}
  | [] => Ok event
  end.

(** *** [addExceptionTypeValue] *)

(** Modelled from the spec: [addExceptionTypeValue] belongs to the
    utilities package, which is not among the sources at hand.  Section 4.4,
    step 7: one exception entry is guaranteed, created when the conversion
    produced none, and the fallbacks (value, type and mechanism) fill what
    that entry does not have yet. *)
Definition addExceptionTypeValue
           (event : Event) (value type : string) (mechanism : Mechanism) : Event :=
  let first :=
    match ev_values event with
    | v :: _ => v
    | [] => {| ex_type := VUndefined; ex_value := VUndefined;
               ex_stacktrace := None; ex_mechanism := None |}
    end in
  {| ev_level := ev_level event;
     ev_values :=
       {| ex_value := if Js.truthy (ex_value first) then ex_value first
                      else VStr value;
          ex_type := if Js.truthy (ex_type first) then ex_type first
                     else if Js.truthy (VStr type) then VStr type
                     else VStr "Error";
          ex_stacktrace := ex_stacktrace first;
          ex_mechanism := match ex_mechanism first with
                          | Some m => Some m
                          | None => Some mechanism
                          end |} :: tl (ev_values event);
     ev_extra := ev_extra event |}.

(** *** [_eventFromGlobalHandler] *)

Variable env : Env.

(** [(client && client.getOptions().maxValueLength) || 250] *)
Definition maxValueLength : Z :=
  match client_maxValueLength env with
  | Some (Some n) => if (n =? 0)%Z then 250%Z else n
  | _ => 250%Z
  end.

(** The first statement of [_eventFromGlobalHandler]: a message that is not
    a string is replaced, unless the trace comes from the rejection hook.
    The trace is an object the caller still holds, so the assignment is
    returned as the new trace. *)
Definition repair_message (stacktrace : StackTrace) : Result StackTrace :=
  if negb (isString (st_message stacktrace))
     && negb (st_mechanism stacktrace =? "onunhandledrejection")
  then
    let message := st_message stacktrace in
    e <~ Js.get message "error" ;;
    new <~ (if Js.truthy e then
              e1 <~ Js.get message "error" ;;
              m1 <~ Js.get e1 "message" ;;
              if isString m1 then
                e2 <~ Js.get message "error" ;;
                Js.get e2 "message"
              else Ok (VStr "No error message")
            else Ok (VStr "No error message")) ;;
    Ok (set_message stacktrace new)
  else Ok stacktrace.

(** Returns the event together with the trace as the function leaves
    it. *)
Definition _eventFromGlobalHandler
           (stacktrace : StackTrace) (handler : string) (error : Value)
  : Result (Event * StackTrace) :=
  stacktrace <~ repair_message stacktrace ;;
  if (handler =? "onunhandledrejection") && (st_mode stacktrace =? "failed") then
    event <~ _eventFromIncompleteRejection stacktrace handler error ;;
    Ok (event, stacktrace)
  else
    let event := eventFromStacktrace stacktrace in
    let data := mechanism_data stacktrace in
    let fallbackValue :=
      if Js.truthy (st_original stacktrace)
      then truncate (JSON_stringify (normalize (st_original stacktrace))) maxValueLength
      else "" in
    let fallbackType :=
      if handler =? "onunhandledrejection" then "UnhandledRejection" else "Error" in
    Ok (addExceptionTypeValue event fallbackValue fallbackType
          {| mech_data := data; mech_handled := false; mech_type := handler |},
        stacktrace).

(** *** The hook installed on [onerror] *)

Definition arg (n : nat) (arguments : list Value) : Value :=
  nth n arguments VUndefined.

(** [f.apply(this, arguments)] *)
Definition invoke (f : Callable) (arguments : list Value) : M Value :=
  ([Apply f arguments], Function_apply f arguments).

(** [error && error.__sentry_own_request__ === true], as a condition. *)
Definition isFailedOwnDelivery (error : Value) : Result bool :=
  if Js.truthy error then
    marker <~ Js.get error "__sentry_own_request__" ;;
    Ok (Js.is_true marker)
  else Ok false.

(** The label parsing of the branch without an error object: the pair of
    [name] and [message] it leaves. *)
Definition parse_label (message : Value) : Value * Value :=
  match message with
  | VStr s =>
      match Regex.String_match s ERROR_TYPES_RE with
      | Some groups => (Regex.group 1 groups, Regex.group 2 groups)
      | None => (VUndefined, message)
      end
  | _ => (VUndefined, message)
  end.

(** The trace that branch builds: one frame, no [original]. *)
Definition synthetic_stack (message url line column : Value) : StackTrace :=
  let (name, message) := parse_label message in
  {| st_mechanism := "onerror";
     st_message := message;
     st_mode := "onerror";
     st_name := name;
     st_stack :=
       [ {| fr_args := [];
            fr_column := column;
            fr_func := UNKNOWN_FUNCTION;
            fr_line := line;
            fr_url := if Js.truthy url then url else VStr (getLocationHref env) |} ];
     st_original := VUndefined |}.

Definition onerror_wrapper (self : GlobalHandlers) (arguments : list Value) : M Value :=
  let msg := arg 0 arguments in
  let url := arg 1 arguments in
  let line := arg 2 arguments in
  let column := arg 3 arguments in
  let e := arg 4 arguments in
  if negb (hasIntegration env) then
    match _oldOnErrorHandler self with
    | Some old => invoke old arguments
    | None => ret (VBool false)
    end
  else
    error <- lift (if isErrorEvent e then Js.get e "error" else Ok e) ;;
    message <- lift (if isErrorEvent msg then Js.get msg "message" else Ok msg) ;;
    let stack :=
      if Js.truthy error && isError error
      then set_mechanism (_computeStackTrace error) "onerror"
      else synthetic_stack message url line column in
    own <- lift (isFailedOwnDelivery error) ;;
    (if negb (shouldIgnoreOnError env) && negb own then
       built <- lift (_eventFromGlobalHandler stack "onerror" error) ;;
       emit (CaptureEvent (fst built) (snd built) error)
     else ret tt) ;;;
    match _oldOnErrorHandler self with
    | Some old => invoke old arguments
    | None => ret (VBool false)
    end.

(** *** The hook installed on [onunhandledrejection] *)

(** [let error = e; try { error = e && 'reason' in e ? e.reason : e; } catch (_oO) {}] *)
Definition rejection_reason (e : Value) : Value :=
  match (if Js.truthy e then
           exposed <~ Js.has "reason" e ;;
           if exposed then Js.get e "reason" else Ok e
         else Ok e) with
  | Ok error => error
  | Throw _oO => e
  end.

Definition onunhandledrejection_wrapper
           (self : GlobalHandlers) (arguments : list Value) : M Value :=
  let e := arg 0 arguments in
  if negb (hasIntegration env) then ret VUndefined
  else
    let error := rejection_reason e in
    own <- lift (isFailedOwnDelivery error) ;;
    if shouldIgnoreOnError env || own then ret VUndefined
    else
      let stack := set_mechanism (_computeStackTrace error) "onunhandledrejection" in
      built <- lift (_eventFromGlobalHandler stack "onunhandledrejection" error) ;;
      emit (CaptureEvent (fst built) (snd built) error) ;;;
      match _oldOnUnhandledRejectionHandler self with
      | Some old => invoke old arguments ;;; ret VUndefined
      | None => ret VUndefined
      end.

(** Applying whatever function sits in a slot of the global object. *)
Definition call (s : State) (f : Callable) (arguments : list Value) : M Value :=
  match f with
  | OnErrorWrapper => onerror_wrapper (instance s) arguments
  | OnUnhandledRejectionWrapper => onunhandledrejection_wrapper (instance s) arguments
  | HostFunction _ => invoke f arguments
  end.

(** The host reports an uncaught error / an unhandled rejection. *)
Definition trigger_onerror (s : State) (arguments : list Value) : M Value :=
  match onerror (_global s) with
  | Some f => call s f arguments
  | None => ret VUndefined
  end.

Definition trigger_onunhandledrejection (s : State) (arguments : list Value) : M Value :=
  match onunhandledrejection (_global s) with
  | Some f => call s f arguments
  | None => ret VUndefined
  end.

End Integration.

(** ** Installation *)

(** [new GlobalHandlers(options)]: both hooks are on unless the options say
    otherwise. *)
Definition constructor (options : option GlobalHandlersIntegrations) : GlobalHandlers :=
  {| _options := match options with
                 | Some o => o
                 | None => {| opt_onerror := true; opt_onunhandledrejection := true |}
                 end;
     _oldOnErrorHandler := None;
     _oldOnUnhandledRejectionHandler := None;
     _onErrorHandlerInstalled := false;
     _onUnhandledRejectionHandlerInstalled := false |}.

Definition _installGlobalOnErrorHandler (s : State) : State :=
  if _onErrorHandlerInstalled (instance s) then s
  else
    {| instance :=
         {| _options := _options (instance s);
            _oldOnErrorHandler := onerror (_global s);
            _oldOnUnhandledRejectionHandler := _oldOnUnhandledRejectionHandler (instance s);
            _onErrorHandlerInstalled := true;
            _onUnhandledRejectionHandlerInstalled :=
              _onUnhandledRejectionHandlerInstalled (instance s) |};
       _global :=
         {| onerror := Some OnErrorWrapper;
            onunhandledrejection := onunhandledrejection (_global s);
            Error_stackTraceLimit := Error_stackTraceLimit (_global s) |} |}.

Definition _installGlobalOnUnhandledRejectionHandler (s : State) : State :=
  if _onUnhandledRejectionHandlerInstalled (instance s) then s
  else
    {| instance :=
         {| _options := _options (instance s);
            _oldOnErrorHandler := _oldOnErrorHandler (instance s);
            _oldOnUnhandledRejectionHandler := onunhandledrejection (_global s);
            _onErrorHandlerInstalled := _onErrorHandlerInstalled (instance s);
            _onUnhandledRejectionHandlerInstalled := true |};
       _global :=
         {| onerror := onerror (_global s);
            onunhandledrejection := Some OnUnhandledRejectionWrapper;
            Error_stackTraceLimit := Error_stackTraceLimit (_global s) |} |}.

Definition set_stackTraceLimit (s : State) (n : Z) : State :=
  {| instance := instance s;
     _global := {| onerror := onerror (_global s);
                   onunhandledrejection := onunhandledrejection (_global s);
                   Error_stackTraceLimit := Some n |} |}.

(** [setupOnce], with the calls it makes in order. *)
Definition setupOnce (s : State) : list Effect * State :=
  let s0 := set_stackTraceLimit s 50 in
  let '(l1, s1) :=
    if opt_onerror (_options (instance s0))
    then ([LoggerLog "Global Handler attached: onerror"],
          _installGlobalOnErrorHandler s0)
    else ([], s0) in
  let '(l2, s2) :=
    if opt_onunhandledrejection (_options (instance s1))
    then ([LoggerLog "Global Handler attached: onunhandledrejection"],
          _installGlobalOnUnhandledRejectionHandler s1)
    else ([], s1) in
  (AssignStackTraceLimit 50 :: l1 ++ l2, s2).

(** ** Notions the statements are written in *)

(** The order [Array_sort] sorts by. *)
Definition string_le (a b : string) : Prop := (a <=? b) = true.

(** When the repair leaves the trace alone. *)
Definition message_kept (stacktrace : StackTrace) : bool :=
  isString (st_message stacktrace)
  || (st_mechanism stacktrace =? "onunhandledrejection").

(** One exception entry, whose mechanism is unhandled and names the
    handler. *)
Definition one_unhandled_exception (event : Event) (handler : string) : bool :=
  match ev_values event with
  | [v] =>
      match ex_mechanism v with
      | Some m => negb (mech_handled m) && (mech_type m =? handler)
      | None => false
      end
  | _ => false
  end.

(** What the conversion of a trace is expected to give: no exception entry
    or one, without a mechanism. *)
Definition bare_conversion (event : Event) : bool :=
  match ev_values event with
  | [] => true
  | [v] => match ex_mechanism v with None => true | Some _ => false end
  | _ => false
  end.

Definition is_submission (e : Effect) : bool :=
  match e with
  | CaptureEvent _ _ _ => true
  | _ => false
  end.

(** The calls of [captureEvent] among the effects. *)
Definition submissions (l : list Effect) : list Effect := filter is_submission l.

Definition is_chained_call (e : Effect) : bool :=
  match e with
  | Apply _ _ => true
  | _ => false
  end.

(** The applications of a handler among the effects. *)
Definition chained_calls (l : list Effect) : list Effect := filter is_chained_call l.

(** The failure carries [__sentry_own_request__ = true]. *)
Definition own_request (error : Value) : Prop :=
  Js.get error "__sentry_own_request__" = Ok (VBool true).

(** The failure the [onerror] hook works on: [isErrorEvent(e) ? e.error : e]. *)
Definition onerror_failure (arguments : list Value) : Result Value :=
  let e := arg 4 arguments in
  if isErrorEvent e then Js.get e "error" else Ok e.

(** The surroundings, with one answer changed. *)
Definition with_hasIntegration (b : bool) (env : Env) : Env :=
  {| hasIntegration := b;
     client_maxValueLength := client_maxValueLength env;
     shouldIgnoreOnError := shouldIgnoreOnError env;
     getLocationHref := getLocationHref env |}.

Definition with_shouldIgnoreOnError (b : bool) (env : Env) : Env :=
  {| hasIntegration := hasIntegration env;
     client_maxValueLength := client_maxValueLength env;
     shouldIgnoreOnError := b;
     getLocationHref := getLocationHref env |}.

(** The integration, having captured [old] from both slots. *)
Definition chained_after (old : Callable) (self : GlobalHandlers) : GlobalHandlers :=
  {| _options := _options self;
     _oldOnErrorHandler := Some old;
     _oldOnUnhandledRejectionHandler := Some old;
     _onErrorHandlerInstalled := _onErrorHandlerInstalled self;
     _onUnhandledRejectionHandlerInstalled := _onUnhandledRejectionHandlerInstalled self |}.

(** *** Label parsing, spelled out

    What [ERROR_TYPES_RE] does, written as plain prefix stripping, and the
    pattern cut into its three optional or final pieces. *)

Definition has_line_terminator (cs : list ascii) : bool :=
  existsb Regex.isLineTerminator cs.

(** [strip_prefix l cs]: what is left of [cs] after the literal [l], if [cs]
    starts with it. *)
Fixpoint strip_prefix (l cs : list ascii) : option (list ascii) :=
  match l with
  | [] => Some cs
  | c :: l' =>
      match cs with
      | c' :: cs' => if (c =? c')%char then strip_prefix l' cs' else None
      | [] => None
      end
  end.

(** The alternatives before "Error", in the order of the pattern; the last
    one is empty. *)
Definition LABEL_STEMS : list string :=
  ["Eval"; "Internal"; "Range"; "Reference"; "Syntax"; "Type"; "URI"; ""].

(** The labels the pattern knows. *)
Definition ERROR_LABELS : list string :=
  map (fun stem : string => (stem ++ "Error")%string) LABEL_STEMS.

(** The first label that, followed by ": ", starts [cs], and what follows. *)
Fixpoint strip_label (stems : list string) (cs : list ascii)
  : option (string * list ascii) :=
  match stems with
  | [] => None
  | stem :: stems' =>
      match strip_prefix (list_ascii_of_string (stem ++ "Error: ")%string) cs with
      | Some cs' => Some ((stem ++ "Error")%string, cs')
      | None => strip_label stems' cs
      end
  end.

(** Drops "Uncaught " or "uncaught ", and "exception: " after it. *)
Definition strip_uncaught (cs : list ascii) : list ascii :=
  match cs with
  | c :: cs0 =>
      if (c =? "U")%char || (c =? "u")%char then
        match strip_prefix (list_ascii_of_string "ncaught ") cs0 with
        | Some cs1 =>
            match strip_prefix (list_ascii_of_string "exception: ") cs1 with
            | Some cs2 => cs2
            | None => cs1
            end
        | None => cs
        end
      else cs
  | [] => cs
  end.

(** The name and message for a message string [s]. *)
Definition label_spec (s : string) : Value * Value :=
  let cs := list_ascii_of_string s in
  if has_line_terminator cs then (VUndefined, VStr s)
  else
    match strip_label LABEL_STEMS (strip_uncaught cs) with
    | Some (label, cs') => (VStr label, VStr (string_of_list_ascii cs'))
    | None => (VUndefined, VStr (string_of_list_ascii (strip_uncaught cs)))
    end.

Definition RE_uncaught : Regex.regex :=
  Regex.Cat (Regex.Cls ["U"; "u"]%char)
            (Regex.Cat (Regex.Lit "ncaught ")
                       (Regex.Opt (Regex.Lit "exception: "))).

Fixpoint alternatives (stem : string) (stems : list string) : Regex.regex :=
  match stems with
  | [] => Regex.Lit stem
  | stem' :: stems' => Regex.Alt (Regex.Lit stem) (alternatives stem' stems')
  end.

Definition RE_label : Regex.regex :=
  Regex.Cat (Regex.Grp 1 (Regex.Cat (alternatives "Eval" (tl LABEL_STEMS))
                                    (Regex.Lit "Error")))
            (Regex.Lit ": ").

Definition RE_message : Regex.regex :=
  Regex.Cat (Regex.Grp 2 Regex.DotStar) Regex.Eol.

(** The first success among the attempts, in order. *)
Fixpoint first_success {A B} (f : A -> option B) (l : list A) : option B :=
  match l with
  | [] => None
  | x :: l' => match f x with Some y => Some y | None => first_success f l' end
  end.

(** The captures after a label has been found, or nothing. *)
Definition labelled (cs : list ascii) (caps : Regex.Captures)
           (found : option (string * list ascii)) : option Regex.Captures :=
  match found with
  | Some (label, cs') =>
      if has_line_terminator cs then None
      else Some ((2, string_of_list_ascii cs') :: (1, label) :: caps)
  | None => None
  end.

(** What the pattern does from the label on. *)
Definition from_label (cs : list ascii) (caps : Regex.Captures)
  : option Regex.Captures :=
  if has_line_terminator cs then None
  else
    match strip_label LABEL_STEMS cs with
    | Some (label, cs') => Some ((2, string_of_list_ascii cs') :: (1, label) :: caps)
    | None => Some ((2, string_of_list_ascii cs) :: caps)
    end.

(** What [strip_uncaught] can drop. *)
Definition UNCAUGHT_PREFIXES : list string :=
  [""; "Uncaught "; "uncaught "; "Uncaught exception: "; "uncaught exception: "].

(** *** The ways a hook ends *)

(** What the [onerror] hook does with the previous handler. *)
Definition chain_onerror {C : Collaborators} (self : GlobalHandlers)
           (arguments : list Value) : M Value :=
  match _oldOnErrorHandler self with
  | Some old => ([Apply old arguments], Function_apply old arguments)
  | None => ([], Ok (VBool false))
  end.

(** What the rejection hook does with the previous handler, once it has
    submitted. *)
Definition chain_onunhandledrejection {C : Collaborators} (self : GlobalHandlers)
           (arguments : list Value) : M Value :=
  match _oldOnUnhandledRejectionHandler self with
  | Some old => ([Apply old arguments],
                 rbind (Function_apply old arguments) (fun _ => Ok VUndefined))
  | None => ([], Ok VUndefined)
  end.

(** What belongs to one hook: its slot of the global object, the handler
    captured from it and the installed-flag. *)
Definition onerror_hook_state (s : State) : HandlerSlot * HandlerSlot * bool :=
  (onerror (_global s), _oldOnErrorHandler (instance s),
   _onErrorHandlerInstalled (instance s)).

Definition onunhandledrejection_hook_state (s : State)
  : HandlerSlot * HandlerSlot * bool :=
  (onunhandledrejection (_global s), _oldOnUnhandledRejectionHandler (instance s),
   _onUnhandledRejectionHandlerInstalled (instance s)).

(** The message the [onerror] hook works on:
    [isErrorEvent(msg) ? msg.message : msg]. *)
Definition onerror_message (arguments : list Value) : Result Value :=
  let msg := arg 0 arguments in
  if isErrorEvent msg then Js.get msg "message" else Ok msg.



(** ** A concrete setting

    Simple collaborators and states, on which the statements below are run. *)

Module Sample.

Definition computeStackTrace (ex : Value) : StackTrace :=
  {| st_mechanism := "";
     st_message := match Js.get ex "message" with
                   | Ok (VStr m) => VStr m
                   | _ => VStr "No error message"
                   end;
     st_mode := if isError ex then "stack" else "failed";
     st_name := match Js.get ex "name" with
                | Ok (VStr n) => VStr n
                | _ => VUndefined
                end;
     st_stack := [];
     st_original := ex |}.

Definition convert (stacktrace : StackTrace) : Event :=
  {| ev_level := None;
     ev_values := [ {| ex_type := st_name stacktrace;
                       ex_value := st_message stacktrace;
                       ex_stacktrace := match st_stack stacktrace with
                                        | [] => None
                                        | frames => Some frames
                                        end;
                       ex_mechanism := None |} ];
     ev_extra := [] |}.

Definition join (ks : list string) : string := String.concat ", " ks.

Definition cut (s : string) (max : Z) : string :=
  substring 0 (Z.to_nat max) s.

Definition collaborators : Collaborators :=
  {| _computeStackTrace := computeStackTrace;
     eventFromStacktrace := convert;
     normalize := fun v => v;
     normalizeToSize := fun v => v;
     JSON_stringify := fun v => match Js.toString Js.string_of_Z v with
                                | Ok s => s
                                | Throw _ => ""
                                end;
     truncate := cut;
     keysToEventMessage := join;
     Function_apply := fun _ _ => Ok (VBool true);
     Number_toString := Js.string_of_Z |}.

Definition env : Env :=
  {| hasIntegration := true;
     client_maxValueLength := Some None;
     shouldIgnoreOnError := false;
     getLocationHref := "http://localhost/" |}.

Definition host : Callable := HostFunction 0.

(** An integration whose two hooks are installed over [host]. *)
Definition installed : GlobalHandlers :=
  {| _options := {| opt_onerror := true; opt_onunhandledrejection := true |};
     _oldOnErrorHandler := Some host;
     _oldOnUnhandledRejectionHandler := Some host;
     _onErrorHandlerInstalled := true;
     _onUnhandledRejectionHandlerInstalled := true |}.

(** The page before the integration is set up. *)
Definition fresh : State :=
  {| instance := constructor None;
     _global := {| onerror := Some host;
                   onunhandledrejection := Some host;
                   Error_stackTraceLimit := None |} |}.

(** A failed request of the transport: an error object with the
    marker. *)
Definition own_request_error : Value :=
  VObj ClsError [("name", Hidden (VStr "TypeError"));
                 ("message", Hidden (VStr "Failed to fetch"));
                 ("__sentry_own_request__", Data (VBool true))].

Definition rejection_event (reason : Value) : Value :=
  VObj ClsObject [("type", Data (VStr "unhandledrejection"));
                  ("reason", Data reason)].

(** An event-like object: its [reason] getter throws. *)
Definition hostile_event : Value :=
  VObj ClsObject [("reason", Accessor (VStr "denied"))].

(** The trace of a rejection, as the rejection hook tags it. *)
Definition rejected (reason : Value) : StackTrace :=
  set_mechanism (computeStackTrace reason) "onunhandledrejection".

(** An event object where [onerror] expects the message, and the trace the
    hook builds from it. *)
Definition event_as_message : Value :=
  VObj ClsObject [("type", Data (VStr "error"))].

Definition event_trace : StackTrace :=
  synthetic_stack env event_as_message VUndefined VUndefined VUndefined.

(** A message of two lines. *)
Definition two_lines : string := String "a" (String "010" "b").



(** A client that sets [maxValueLength] to 10. *)
Definition env_10 : Env :=
  {| hasIntegration := true;
     client_maxValueLength := Some (Some 10%Z);
     shouldIgnoreOnError := false;
     getLocationHref := "http://localhost/" |}.

(** A call of [onerror] as a browser without error objects makes it. *)
Definition script_error_call : list Value :=
  [VStr "Script error."; VStr ""; VNum 0; VNum 0].

(** A call of [onerror] with an error event as its fifth argument, and the
    call with the error itself. *)
Definition error_event_call : list Value :=
  [VStr "Uncaught TypeError: x is not a function"; VStr "http://localhost/app.js";
   VNum 3; VNum 14;
   VObj ClsErrorEvent [("error", Data (TypeError "x is not a function"))]].

Definition error_call : list Value :=
  [VStr "Uncaught TypeError: x is not a function"; VStr "http://localhost/app.js";
   VNum 3; VNum 14; TypeError "x is not a function"].

End Sample.

(** * Properties *)

(** ** Installation *)

Lemma _installGlobalOnErrorHandler_installed (s : State) :
  _onErrorHandlerInstalled (instance (_installGlobalOnErrorHandler s)) = true.
Proof.
  unfold _installGlobalOnErrorHandler.
  destruct (_onErrorHandlerInstalled (instance s)) eqn:E; simpl; auto.
Qed.

Lemma _installGlobalOnUnhandledRejectionHandler_installed (s : State) :
  _onUnhandledRejectionHandlerInstalled
    (instance (_installGlobalOnUnhandledRejectionHandler s)) = true.
Proof.
  unfold _installGlobalOnUnhandledRejectionHandler.
  destruct (_onUnhandledRejectionHandlerInstalled (instance s)) eqn:E; simpl; auto.
Qed.

Lemma install_again_onerror (s : State) :
  _installGlobalOnErrorHandler (_installGlobalOnErrorHandler s)
  = _installGlobalOnErrorHandler s.
Proof.
  unfold _installGlobalOnErrorHandler at 1.
  now rewrite _installGlobalOnErrorHandler_installed.
Qed.

Lemma install_again_onunhandledrejection (s : State) :
  _installGlobalOnUnhandledRejectionHandler (_installGlobalOnUnhandledRejectionHandler s)
  = _installGlobalOnUnhandledRejectionHandler s.
Proof.
  unfold _installGlobalOnUnhandledRejectionHandler at 1.
  now rewrite _installGlobalOnUnhandledRejectionHandler_installed.
Qed.

(** What the first installation does: it captures the handler that was in the
    slot and puts the wrapper there. *)
Lemma first_install_onerror (s : State) :
  _onErrorHandlerInstalled (instance s) = false ->
  _oldOnErrorHandler (instance (_installGlobalOnErrorHandler s)) = onerror (_global s)
  /\ onerror (_global (_installGlobalOnErrorHandler s)) = Some OnErrorWrapper.
Proof.
  intros H. unfold _installGlobalOnErrorHandler. rewrite H. simpl. auto.
Qed.

Lemma first_install_onunhandledrejection (s : State) :
  _onUnhandledRejectionHandlerInstalled (instance s) = false ->
  _oldOnUnhandledRejectionHandler (instance (_installGlobalOnUnhandledRejectionHandler s))
  = onunhandledrejection (_global s)
  /\ onunhandledrejection (_global (_installGlobalOnUnhandledRejectionHandler s))
     = Some OnUnhandledRejectionWrapper.
Proof.
  intros H. unfold _installGlobalOnUnhandledRejectionHandler. rewrite H. simpl. auto.
Qed.

Lemma iter_install_onerror (s : State) (n : nat) :
  Nat.iter (S n) _installGlobalOnErrorHandler s = _installGlobalOnErrorHandler s.
Proof.
  induction n as [|n IH]; [reflexivity|].
  change (_installGlobalOnErrorHandler (Nat.iter (S n) _installGlobalOnErrorHandler s)
          = _installGlobalOnErrorHandler s).
  rewrite IH. apply install_again_onerror.
Qed.

Lemma iter_install_onunhandledrejection (s : State) (n : nat) :
  Nat.iter (S n) _installGlobalOnUnhandledRejectionHandler s
  = _installGlobalOnUnhandledRejectionHandler s.
Proof.
  induction n as [|n IH]; [reflexivity|].
  change (_installGlobalOnUnhandledRejectionHandler
            (Nat.iter (S n) _installGlobalOnUnhandledRejectionHandler s)
          = _installGlobalOnUnhandledRejectionHandler s).
  rewrite IH. apply install_again_onunhandledrejection.
Qed.

(** The handler captured by the first call is still the captured one after
    any number of further calls, and the slot still holds the one wrapper. *)
Lemma install_onerror_keeps_first_capture (s : State) (n : nat) :
  _onErrorHandlerInstalled (instance s) = false ->
  _oldOnErrorHandler (instance (Nat.iter (S n) _installGlobalOnErrorHandler s))
  = onerror (_global s)
  /\ onerror (_global (Nat.iter (S n) _installGlobalOnErrorHandler s))
     = Some OnErrorWrapper.
Proof.
  intros H. rewrite iter_install_onerror. now apply first_install_onerror.
Qed.

Lemma install_onunhandledrejection_keeps_first_capture (s : State) (n : nat) :
  _onUnhandledRejectionHandlerInstalled (instance s) = false ->
  _oldOnUnhandledRejectionHandler
    (instance (Nat.iter (S n) _installGlobalOnUnhandledRejectionHandler s))
  = onunhandledrejection (_global s)
  /\ onunhandledrejection
       (_global (Nat.iter (S n) _installGlobalOnUnhandledRejectionHandler s))
     = Some OnUnhandledRejectionWrapper.
Proof.
  intros H. rewrite iter_install_onunhandledrejection.
  now apply first_install_onunhandledrejection.
Qed.

(** C5. Installing a hook again, any number of times, changes nothing: the
    state after [n + 1] calls of an install operation is the state after one
    call, for the [onerror] hook and for the [onunhandledrejection] hook.
    Starting from a hook that is not installed, the handler captured is the
    one that was in the slot before the first call, and the slot holds the
    wrapper. *)
Theorem install_idempotent (s : State) (n : nat) :
  (Nat.iter (S n) _installGlobalOnErrorHandler s = _installGlobalOnErrorHandler s
   /\ Nat.iter (S n) _installGlobalOnUnhandledRejectionHandler s
      = _installGlobalOnUnhandledRejectionHandler s)
  /\ (_onErrorHandlerInstalled (instance s) = false ->
      _oldOnErrorHandler (instance (Nat.iter (S n) _installGlobalOnErrorHandler s))
      = onerror (_global s)
      /\ onerror (_global (Nat.iter (S n) _installGlobalOnErrorHandler s))
         = Some OnErrorWrapper)
  /\ (_onUnhandledRejectionHandlerInstalled (instance s) = false ->
      _oldOnUnhandledRejectionHandler
        (instance (Nat.iter (S n) _installGlobalOnUnhandledRejectionHandler s))
      = onunhandledrejection (_global s)
      /\ onunhandledrejection
           (_global (Nat.iter (S n) _installGlobalOnUnhandledRejectionHandler s))
         = Some OnUnhandledRejectionWrapper).
Proof.
  split; [split|split].
  - apply iter_install_onerror.
  - apply iter_install_onunhandledrejection.
  - apply install_onerror_keeps_first_capture.
  - apply install_onunhandledrejection_keeps_first_capture.
Qed.

Lemma install_idempotent_witness :
  (_oldOnErrorHandler
     (instance (Nat.iter 3 _installGlobalOnErrorHandler Sample.fresh))
   = Some Sample.host
   /\ onerror (_global (Nat.iter 3 _installGlobalOnErrorHandler Sample.fresh))
      = Some OnErrorWrapper)
  /\ (_oldOnUnhandledRejectionHandler
        (instance (Nat.iter 3 _installGlobalOnUnhandledRejectionHandler Sample.fresh))
      = Some Sample.host
      /\ onunhandledrejection
           (_global (Nat.iter 3 _installGlobalOnUnhandledRejectionHandler Sample.fresh))
         = Some OnUnhandledRejectionWrapper).
Proof.
  split.
  - exact (proj1 (proj2 (install_idempotent Sample.fresh 2)) eq_refl).
  - exact (proj2 (proj2 (install_idempotent Sample.fresh 2)) eq_refl).
Defined.

(** ** [setupOnce] *)

Lemma install_onerror_keeps_limit (s : State) :
  Error_stackTraceLimit (_global (_installGlobalOnErrorHandler s))
  = Error_stackTraceLimit (_global s).
Proof.
  unfold _installGlobalOnErrorHandler.
  now destruct (_onErrorHandlerInstalled (instance s)).
Qed.

Lemma install_onunhandledrejection_keeps_limit (s : State) :
  Error_stackTraceLimit (_global (_installGlobalOnUnhandledRejectionHandler s))
  = Error_stackTraceLimit (_global s).
Proof.
  unfold _installGlobalOnUnhandledRejectionHandler.
  now destruct (_onUnhandledRejectionHandlerInstalled (instance s)).
Qed.

Lemma install_onerror_keeps_options (s : State) :
  _options (instance (_installGlobalOnErrorHandler s)) = _options (instance s).
Proof.
  unfold _installGlobalOnErrorHandler.
  now destruct (_onErrorHandlerInstalled (instance s)).
Qed.

(** C10. Whatever the state (options on or off, hooks installed or not),
    the first thing [setupOnce] does is the assignment of 50 to
    [Error.stackTraceLimit], and the limit is 50 when it returns; with both
    options off that assignment is all it does. *)
Theorem setupOnce_assigns_stackTraceLimit (s : State) :
  (exists l, fst (setupOnce s) = AssignStackTraceLimit 50 :: l)
  /\ Error_stackTraceLimit (_global (snd (setupOnce s))) = Some 50%Z
  /\ (opt_onerror (_options (instance s)) = false ->
      opt_onunhandledrejection (_options (instance s)) = false ->
      setupOnce s = ([AssignStackTraceLimit 50], set_stackTraceLimit s 50)).
Proof.
  unfold setupOnce.
  destruct (opt_onerror (_options (instance (set_stackTraceLimit s 50)))) eqn:E1.
  - rewrite install_onerror_keeps_options.
    destruct (opt_onunhandledrejection (_options (instance (set_stackTraceLimit s 50)))) eqn:E2;
      simpl; (split; [eexists; reflexivity|]); (split; [|simpl in E1; congruence]).
    + now rewrite install_onunhandledrejection_keeps_limit, install_onerror_keeps_limit.
    + now rewrite install_onerror_keeps_limit.
  - destruct (opt_onunhandledrejection (_options (instance (set_stackTraceLimit s 50)))) eqn:E2;
      simpl; (split; [eexists; reflexivity|]); split.
    + now rewrite install_onunhandledrejection_keeps_limit.
    + simpl in E2. congruence.
    + reflexivity.
    + reflexivity.
Qed.

Lemma setupOnce_assigns_stackTraceLimit_witness :
  setupOnce {| instance := constructor (Some {| opt_onerror := false;
                                                opt_onunhandledrejection := false |});
               _global := _global Sample.fresh |}
  = ([AssignStackTraceLimit 50],
     set_stackTraceLimit
       {| instance := constructor (Some {| opt_onerror := false;
                                           opt_onunhandledrejection := false |});
          _global := _global Sample.fresh |} 50).
Proof.
  apply (setupOnce_assigns_stackTraceLimit
           {| instance := constructor (Some {| opt_onerror := false;
                                               opt_onunhandledrejection := false |});
              _global := _global Sample.fresh |}); reflexivity.
Defined.

(** ** Label parsing *)

Lemma parse_label_no_match (s : string) :
  Regex.String_match s ERROR_TYPES_RE = None ->
  parse_label (VStr s) = (VUndefined, VStr s).
Proof.
  intros H. unfold parse_label. now rewrite H.
Qed.

Lemma synthetic_stack_label (env : Env) (message url line column : Value) :
  (st_name (synthetic_stack env message url line column),
   st_message (synthetic_stack env message url line column))
  = parse_label message.
Proof.
  unfold synthetic_stack. now destruct (parse_label message).
Qed.

(** A message with a line break in it is not matched: [.] stops at the line
    terminator and [$] wants the end of the input. *)
Example two_lines_do_not_match :
  Regex.String_match Sample.two_lines ERROR_TYPES_RE = None.
Proof. vm_compute. reflexivity. Qed.

Example label_alone_is_optional :
  parse_label (VStr "uncaught exception: boom") = (VUndefined, VStr "boom").
Proof. vm_compute. reflexivity. Qed.

Example bare_Error_is_a_label :
  parse_label (VStr "Error: boom") = (VStr "Error", VStr "boom").
Proof. vm_compute. reflexivity. Qed.

(** C6. On the path that builds the trace without an error object, the
    message "Uncaught TypeError: x is not a function" gives the name
    "TypeError" and the message "x is not a function"; "Script error." gives
    no name and the message as it is; and a string the pattern does not match
    gives no name and is left as the message. *)
Theorem label_parsing (env : Env) (url line column : Value) :
  (let st := synthetic_stack env (VStr "Uncaught TypeError: x is not a function")
                             url line column in
   st_name st = VStr "TypeError" /\ st_message st = VStr "x is not a function")
  /\ (let st := synthetic_stack env (VStr "Script error.") url line column in
      st_name st = VUndefined /\ st_message st = VStr "Script error.")
  /\ (forall s : string,
         Regex.String_match s ERROR_TYPES_RE = None ->
         let st := synthetic_stack env (VStr s) url line column in
         st_name st = VUndefined /\ st_message st = VStr s).
Proof.
  split; [|split].
  - split; reflexivity.
  - split; reflexivity.
  - intros s H st.
    pose proof (synthetic_stack_label env (VStr s) url line column) as E.
    rewrite (parse_label_no_match s H) in E.
    fold st in E. now inversion E.
Qed.

Lemma label_parsing_witness :
  st_name (synthetic_stack Sample.env (VStr Sample.two_lines)
                           VUndefined (VNum 1) (VNum 1)) = VUndefined
  /\ st_message (synthetic_stack Sample.env (VStr Sample.two_lines)
                                 VUndefined (VNum 1) (VNum 1))
     = VStr Sample.two_lines.
Proof.
  apply (label_parsing Sample.env VUndefined (VNum 1) (VNum 1)).
  vm_compute. reflexivity.
Defined.

(** ** Reason extraction *)

Lemma rejection_reason_falsy (e : Value) :
  Js.truthy e = false -> rejection_reason e = e.
Proof.
  intros H. unfold rejection_reason. now rewrite H.
Qed.

Lemma has_object (k : string) (e : Value) (b : bool) :
  Js.has k e = Ok b -> Js.truthy e = true.
Proof.
  destruct e; simpl; congruence.
Qed.

(** C7. Reason extraction is a total function of the input and throws
    nothing.  When the input exposes [reason] and reading it gives [v], the
    reason is [v]; when the input is an object without [reason], the reason is
    the input; and when the probe or the read throws, the reason is the
    input. *)
Theorem rejection_reason_spec (e : Value) :
  (forall v, Js.has "reason" e = Ok true -> Js.get e "reason" = Ok v ->
             rejection_reason e = v)
  /\ (Js.has "reason" e = Ok false -> rejection_reason e = e)
  /\ (forall x, Js.has "reason" e = Throw x \/ Js.get e "reason" = Throw x ->
                rejection_reason e = e).
Proof.
  split; [|split].
  - intros v Hhas Hget. unfold rejection_reason.
    rewrite (has_object _ _ Hhas), Hhas. simpl. now rewrite Hget.
  - intros Hhas. unfold rejection_reason.
    rewrite (has_object _ _ Hhas), Hhas. reflexivity.
  - intros x H. unfold rejection_reason.
    destruct (Js.truthy e) eqn:T; [|reflexivity].
    destruct H as [H|H].
    + now rewrite H.
    + destruct (Js.has "reason" e) as [[|]|y]; simpl; try reflexivity.
      now rewrite H.
Qed.

Lemma rejection_reason_spec_witness :
  rejection_reason (Sample.rejection_event (VNum 42)) = VNum 42
  /\ rejection_reason (VObj ClsObject []) = VObj ClsObject []
  /\ rejection_reason (VStr "boom") = VStr "boom"
  /\ rejection_reason Sample.hostile_event = Sample.hostile_event.
Proof.
  split; [|split; [|split]].
  - apply (proj1 (rejection_reason_spec (Sample.rejection_event (VNum 42))));
      reflexivity.
  - apply (proj1 (proj2 (rejection_reason_spec (VObj ClsObject []))));
      reflexivity.
  - apply (proj2 (proj2 (rejection_reason_spec (VStr "boom")))
             (TypeError "Cannot use 'in' operator")).
    left. reflexivity.
  - apply (proj2 (proj2 (rejection_reason_spec Sample.hostile_event))
             (VStr "denied")).
    right. reflexivity.
Defined.


(** ** Sorting the keys *)

Lemma insert_sorted_perm (k : string) (ks : list string) :
  Permutation (insert_sorted k ks) (k :: ks).
Proof.
  induction ks as [|k' ks IH]; simpl.
  - apply Permutation_refl.
  - destruct (k <=? k').
    + apply Permutation_refl.
    + eapply perm_trans; [apply perm_skip, IH | apply perm_swap].
Qed.

Lemma insert_sorted_HdRel (a k : string) (ks : list string) :
  string_le a k -> HdRel string_le a ks -> HdRel string_le a (insert_sorted k ks).
Proof.
  intros Hak H. destruct ks as [|k' ks]; simpl.
  - now constructor.
  - destruct (k <=? k'); constructor; auto. now inversion H.
Qed.

Lemma insert_sorted_Sorted (k : string) (ks : list string) :
  Sorted string_le ks -> Sorted string_le (insert_sorted k ks).
Proof.
  induction 1 as [|k' ks Hs IH Hhd]; simpl.
  - repeat constructor.
  - destruct (k <=? k') eqn:E.
    + constructor; [now constructor | now constructor].
    + constructor; [exact IH|].
      apply insert_sorted_HdRel; [|exact Hhd].
      destruct (String.leb_total k k') as [L|L]; [congruence | exact L].
Qed.

Lemma Array_sort_perm (ks : list string) : Permutation (Array_sort ks) ks.
Proof.
  induction ks as [|k ks IH]; simpl; [constructor|].
  eapply perm_trans; [apply insert_sorted_perm | now apply perm_skip].
Qed.

Lemma Array_sort_Sorted (ks : list string) : Sorted string_le (Array_sort ks).
Proof.
  induction ks as [|k ks IH]; simpl; [constructor|].
  now apply insert_sorted_Sorted.
Qed.

(** ** Event building *)

Section EventBuilding.

Context {C : Collaborators}.
Variable env : Env.

Lemma repair_message_kept (st : StackTrace) :
  message_kept st = true -> repair_message st = Ok st.
Proof.
  unfold message_kept, repair_message. intros H.
  destruct (isString (st_message st)); simpl in *; [reflexivity|].
  now rewrite H.
Qed.

(** The repair assigns [message] and nothing else. *)
Lemma repair_message_frame (st st' : StackTrace) :
  repair_message st = Ok st' -> st' = set_message st (st_message st').
Proof.
  unfold repair_message.
  destruct (negb (isString (st_message st))
            && negb (st_mechanism st =? "onunhandledrejection")).
  - destruct (Js.get (st_message st) "error") as [e|x]; simpl; [|discriminate].
    match goal with
    | |- rbind ?r _ = _ -> _ => destruct r as [new|x]; simpl; [|discriminate]
    end.
    intros H. inversion H. reflexivity.
  - intros H. inversion H. subst. now destruct st'.
Qed.

(** A repaired message is the string found at [message.error.message], or
    the placeholder. *)
Lemma repair_message_string (st st' : StackTrace) :
  message_kept st = false ->
  repair_message st = Ok st' ->
  (exists e m,
      Js.get (st_message st) "error" = Ok e
      /\ Js.get e "message" = Ok (VStr m)
      /\ st_message st' = VStr m)
  \/ st_message st' = VStr "No error message".
Proof.
  unfold message_kept, repair_message. intros K.
  apply orb_false_elim in K. destruct K as [K1 K2]. rewrite K1, K2. simpl.
  destruct (Js.get (st_message st) "error") as [e|x]; simpl; [|discriminate].
  destruct (Js.truthy e); simpl.
  - destruct (Js.get e "message") as [m|x] eqn:G; simpl; [|discriminate].
    destruct m; simpl; intros H; inversion H; auto.
    left. eauto.
  - intros H. inversion H. auto.
Qed.

Lemma repair_message_mode (st st' : StackTrace) :
  repair_message st = Ok st' -> st_mode st' = st_mode st.
Proof.
  intros H. rewrite (repair_message_frame st H). reflexivity.
Qed.

(** The trace [_eventFromGlobalHandler] leaves is the repaired one. *)
Lemma _eventFromGlobalHandler_trace
      (st : StackTrace) (handler : string) (error : Value)
      (event : Event) (st' : StackTrace) :
  _eventFromGlobalHandler env st handler error = Ok (event, st') ->
  repair_message st = Ok st'.
Proof.
  unfold _eventFromGlobalHandler.
  destruct (repair_message st) as [st1|x]; simpl; [|discriminate].
  destruct ((handler =? "onunhandledrejection") && (st_mode st1 =? "failed")).
  - destruct (_eventFromIncompleteRejection st1 handler error); simpl;
      [|discriminate].
    intros H. now inversion H.
  - intros H. now inversion H.
Qed.

Lemma addExceptionTypeValue_one
      (event : Event) (value type : string) (data : list (string * Value))
      (handler : string) :
  bare_conversion event = true ->
  one_unhandled_exception
    (addExceptionTypeValue event value type
       {| mech_data := data; mech_handled := false; mech_type := handler |})
    handler = true.
Proof.
  unfold bare_conversion, one_unhandled_exception, addExceptionTypeValue.
  destruct (ev_values event) as [|v [|w vs]]; simpl.
  - intros _. apply String.eqb_refl.
  - destruct (ex_mechanism v); [discriminate|]. intros _. simpl.
    apply String.eqb_refl.
  - discriminate.
Qed.

Lemma _eventFromIncompleteRejection_one
      (st : StackTrace) (handler : string) (error : Value) (event : Event) :
  _eventFromIncompleteRejection st handler error = Ok event ->
  one_unhandled_exception event handler = true.
Proof.
  unfold _eventFromIncompleteRejection.
  destruct (isPrimitive error).
  - destruct (Js.toString Number_toString error) as [s|x]; simpl; [|discriminate].
    intros H. inversion H. unfold one_unhandled_exception. simpl.
    apply String.eqb_refl.
  - simpl. intros H. inversion H. unfold one_unhandled_exception. simpl.
    apply String.eqb_refl.
Qed.

Lemma toString_not_symbol (v : Value) :
  (forall d, v <> VSymbol d) -> exists s, Js.toString Number_toString v = Ok s.
Proof.
  intros H. destruct v as [| |[|]|n| |d|]; simpl; eauto.
  - destruct (Z.abs n <=? Js.MAX_SAFE_INTEGER)%Z; eauto.
  - now destruct (H d).
Qed.

Lemma _eventFromIncompleteRejection_returns
      (st : StackTrace) (handler : string) (error : Value) :
  (forall d, error <> VSymbol d) ->
  exists event, _eventFromIncompleteRejection st handler error = Ok event.
Proof.
  intros H. unfold _eventFromIncompleteRejection.
  destruct (isPrimitive error).
  - destruct (toString_not_symbol H) as [s E]. rewrite E. simpl. eauto.
  - simpl. eauto.
Qed.

End EventBuilding.

(** C2. Provided the conversion of a trace gives at most one exception
    entry and no mechanism, every event [_eventFromGlobalHandler] returns, on
    its own path or through [_eventFromIncompleteRejection], has exactly one
    exception entry, with [handled = false] and the handler's name as
    [mechanism.type].  And it does return an event whenever the message is a
    string or the trace comes from the rejection hook, and the failure is not
    a symbol. *)
Theorem built_event_has_one_unhandled_exception
        {C : Collaborators} (env : Env)
        (stacktrace : StackTrace) (handler : string) (error : Value) :
  (forall t, bare_conversion (eventFromStacktrace t) = true) ->
  (message_kept stacktrace = true -> (forall d, error <> VSymbol d) ->
   exists event stacktrace',
     _eventFromGlobalHandler env stacktrace handler error = Ok (event, stacktrace'))
  /\ (forall event stacktrace',
         _eventFromGlobalHandler env stacktrace handler error = Ok (event, stacktrace') ->
         one_unhandled_exception event handler = true).
Proof.
  intros Hconv. split.
  - intros K Hsym. unfold _eventFromGlobalHandler.
    rewrite (repair_message_kept stacktrace K). simpl.
    destruct ((handler =? "onunhandledrejection") && (st_mode stacktrace =? "failed")).
    + destruct (_eventFromIncompleteRejection_returns stacktrace handler Hsym)
        as [event E].
      rewrite E. simpl. eauto.
    + eauto.
  - intros event st'. unfold _eventFromGlobalHandler.
    destruct (repair_message stacktrace) as [st1|x]; simpl; [|discriminate].
    destruct ((handler =? "onunhandledrejection") && (st_mode st1 =? "failed")).
    + destruct (_eventFromIncompleteRejection st1 handler error) as [ev|x] eqn:E;
        simpl; [|discriminate].
      intros H. inversion H. subst.
      eapply _eventFromIncompleteRejection_one; eassumption.
    + intros H. inversion H. subst.
      apply addExceptionTypeValue_one, Hconv.
Qed.

Lemma built_event_has_one_unhandled_exception_witness :
  exists event stacktrace',
    _eventFromGlobalHandler
      (C := Sample.collaborators) Sample.env
      (set_mechanism (Sample.computeStackTrace (TypeError "x is not a function")) "onerror")
      "onerror" (TypeError "x is not a function")
    = Ok (event, stacktrace')
    /\ one_unhandled_exception event "onerror" = true.
Proof.
  pose proof (@built_event_has_one_unhandled_exception
                Sample.collaborators Sample.env
                (set_mechanism (Sample.computeStackTrace (TypeError "x is not a function"))
                               "onerror")
                "onerror" (TypeError "x is not a function")
                (fun t => eq_refl)) as [Hret Hone].
  destruct (Hret eq_refl ltac:(discriminate)) as (event & st' & E).
  exists event, st'. split; [exact E | exact (Hone event st' E)].
Defined.

(** With the handler name "onunhandledrejection" and a trace of mode
    "failed", the event is the one [_eventFromIncompleteRejection] builds
    from the trace as repaired: its level is [Error]; for a primitive reason
    that can be put into a string its one exception entry has the type
    "UnhandledRejection" and the value "Non-Error promise rejection captured
    with value: " followed by that string; for any other reason the value is
    "Non-Error promise rejection captured with keys: " followed by the
    summary of the reason's own enumerable keys in ascending order, and
    [extra.__serialized__] is the reason as [normalizeToSize] returns it. *)
Lemma incomplete_rejection_event
        {C : Collaborators} (env : Env)
        (stacktrace stacktrace' : StackTrace) (error : Value) :
  st_mode stacktrace = "failed" ->
  repair_message stacktrace = Ok stacktrace' ->
  let handler := "onunhandledrejection" in
  let mechanism := {| mech_data := mechanism_data stacktrace';
                      mech_handled := false;
                      mech_type := handler |} in
  _eventFromGlobalHandler env stacktrace handler error
  = (event <~ _eventFromIncompleteRejection stacktrace' handler error ;;
     Ok (event, stacktrace'))%js
  /\ (isPrimitive error = true ->
      forall s, Js.toString Number_toString error = Ok s ->
      _eventFromGlobalHandler env stacktrace handler error
      = Ok ({| ev_level := Some Severity_Error;
               ev_values :=
                 [ {| ex_type := VStr "UnhandledRejection";
                      ex_value := VStr ("Non-Error promise rejection captured with value: " ++ s);
                      ex_stacktrace := None;
                      ex_mechanism := Some mechanism |} ];
               ev_extra := [] |}, stacktrace'))
  /\ (isPrimitive error = false ->
      exists ks,
        Permutation ks (Js.keys error) /\ Sorted string_le ks
        /\ _eventFromGlobalHandler env stacktrace handler error
           = Ok ({| ev_level := Some Severity_Error;
                    ev_values :=
                      [ {| ex_type := VStr "UnhandledRejection";
                           ex_value := VStr ("Non-Error promise rejection captured with keys: "
                                               ++ keysToEventMessage ks);
                           ex_stacktrace := None;
                           ex_mechanism := Some mechanism |} ];
                    ev_extra := [("__serialized__", normalizeToSize error)] |},
                 stacktrace')).
Proof.
  intros Hmode Hrep handler mechanism.
  assert (E : _eventFromGlobalHandler env stacktrace handler error
              = (event <~ _eventFromIncompleteRejection stacktrace' handler error ;;
                 Ok (event, stacktrace'))%js).
  { unfold _eventFromGlobalHandler. rewrite Hrep. simpl rbind.
    rewrite (repair_message_mode stacktrace Hrep), Hmode. reflexivity. }
  split; [exact E|]. split.
  - intros Hprim s Hs. rewrite E. unfold _eventFromIncompleteRejection.
    rewrite Hprim, Hs. reflexivity.
  - intros Hprim. exists (Array_sort (Js.keys error)).
    split; [apply Array_sort_perm|]. split; [apply Array_sort_Sorted|].
    rewrite E. unfold _eventFromIncompleteRejection. rewrite Hprim. reflexivity.
Qed.

Lemma incomplete_rejection_event_witness :
  _eventFromGlobalHandler (C := Sample.collaborators) Sample.env
                          (Sample.rejected (VNum 42)) "onunhandledrejection" (VNum 42)
  = Ok ({| ev_level := Some Severity_Error;
           ev_values :=
             [ {| ex_type := VStr "UnhandledRejection";
                  ex_value := VStr "Non-Error promise rejection captured with value: 42";
                  ex_stacktrace := None;
                  ex_mechanism :=
                    Some {| mech_data := [("mode", VStr "failed");
                                          ("message", VStr "No error message")];
                            mech_handled := false;
                            mech_type := "onunhandledrejection" |} |} ];
           ev_extra := [] |}, Sample.rejected (VNum 42)).
Proof.
  exact (proj1 (proj2 (@incomplete_rejection_event
                         Sample.collaborators Sample.env
                         (Sample.rejected (VNum 42)) (Sample.rejected (VNum 42)) (VNum 42)
                         eq_refl eq_refl))
               eq_refl "42" eq_refl).
Defined.

(** The reason [{b: 1, a: 2}]: the keys come out as "a, b", and the copy of
    the reason is attached. *)
Example rejection_with_object_reason :
  let reason := VObj ClsObject [("b", Data (VNum 1)); ("a", Data (VNum 2))] in
  match _eventFromGlobalHandler (C := Sample.collaborators) Sample.env
                                (Sample.rejected reason) "onunhandledrejection" reason with
  | Ok (event, _) =>
      map ex_value (ev_values event)
      = [VStr "Non-Error promise rejection captured with keys: a, b"]
      /\ ev_extra event = [("__serialized__", reason)]
  | Throw _ => False
  end.
Proof. vm_compute. split; reflexivity. Qed.

(** ** What event building does to the trace *)


(** The other outcome of the repair: the object has an [error] with a string
    [message]. *)
Example repair_finds_nested_message :
  let message :=
    VObj ClsObject
         [("error", Data (VObj ClsError [("message", Data (VStr "boom"))]))] in
  rbind (repair_message
           (synthetic_stack Sample.env message VUndefined VUndefined VUndefined))
        (fun stacktrace => Ok (st_message stacktrace))
  = Ok (VStr "boom").
Proof. vm_compute. reflexivity. Qed.

(** ** The hooks *)

(** The monad, on completions that are known. *)
Lemma bind_lift_Ok {A B} (a : A) (f : A -> M B) : bind (lift (Ok a)) f = f a.
Proof.
  unfold bind, lift. now destruct (f a).
Qed.

Lemma bind_lift_Throw {A B} (x : Value) (f : A -> M B) :
  bind (lift (Throw x)) f = ([], Throw x).
Proof. reflexivity. Qed.

Lemma bind_ret {A B} (a : A) (f : A -> M B) : bind (ret a) f = f a.
Proof.
  unfold bind, ret. now destruct (f a).
Qed.


Lemma own_request_detected (error : Value) :
  own_request error -> isFailedOwnDelivery error = Ok true.
Proof.
  unfold own_request, isFailedOwnDelivery. intros H.
  destruct error; simpl in *; try discriminate.
  now rewrite H.
Qed.

Section Hooks.

Context {C : Collaborators}.
Variable env : Env.
Variable self : GlobalHandlers.
Variable arguments : list Value.

Lemma onerror_own_request_not_submitted (error : Value) :
  onerror_failure arguments = Ok error ->
  own_request error ->
  submissions (effects (onerror_wrapper env self arguments)) = [].
Proof.
  unfold onerror_failure. intros Hfail Hown.
  unfold onerror_wrapper.
  destruct (hasIntegration env); simpl negb; cbv iota.
  - rewrite Hfail, bind_lift_Ok.
    match goal with
    | |- context [bind (lift ?r) _] => destruct r as [message|x]
    end; [|reflexivity].
    rewrite bind_lift_Ok, (own_request_detected Hown), bind_lift_Ok.
    rewrite andb_false_r, bind_ret.
    destruct (_oldOnErrorHandler self); reflexivity.
  - destruct (_oldOnErrorHandler self); reflexivity.
Qed.

Lemma onunhandledrejection_own_request_not_submitted :
  own_request (rejection_reason (arg 0 arguments)) ->
  onunhandledrejection_wrapper env self arguments = ([], Ok VUndefined).
Proof.
  intros Hown. unfold onunhandledrejection_wrapper.
  destruct (hasIntegration env); [|reflexivity]. cbv iota. simpl negb. cbv iota.
  rewrite (own_request_detected Hown), bind_lift_Ok, orb_true_r. reflexivity.
Qed.

End Hooks.

(** C1. A failure that carries [__sentry_own_request__ = true] is not
    submitted: whatever the hook is called with, if the failure the [onerror]
    hook extracts, or the reason the rejection hook extracts, carries the
    marker, the hook makes no call of [captureEvent]. *)
Theorem own_request_never_submitted
        {C : Collaborators} (env : Env) (self : GlobalHandlers)
        (arguments : list Value) :
  (forall error,
      onerror_failure arguments = Ok error -> own_request error ->
      submissions (effects (onerror_wrapper env self arguments)) = [])
  /\ (own_request (rejection_reason (arg 0 arguments)) ->
      submissions (effects (onunhandledrejection_wrapper env self arguments)) = []).
Proof.
  split.
  - intros error. apply onerror_own_request_not_submitted.
  - intros H. now rewrite onunhandledrejection_own_request_not_submitted.
Qed.

Lemma own_request_never_submitted_witness :
  submissions
    (effects (onerror_wrapper (C := Sample.collaborators) Sample.env Sample.installed
                [VStr "Failed to fetch"; VStr "http://localhost/app.js";
                 VNum 1; VNum 1; Sample.own_request_error])) = []
  /\ submissions
       (effects (onunhandledrejection_wrapper
                   (C := Sample.collaborators) Sample.env Sample.installed
                   [Sample.rejection_event Sample.own_request_error])) = [].
Proof.
  split.
  - exact (proj1 (@own_request_never_submitted
                    Sample.collaborators Sample.env Sample.installed
                    [VStr "Failed to fetch"; VStr "http://localhost/app.js";
                     VNum 1; VNum 1; Sample.own_request_error])
                 Sample.own_request_error eq_refl eq_refl).
  - exact (proj2 (@own_request_never_submitted
                    Sample.collaborators Sample.env Sample.installed
                    [Sample.rejection_event Sample.own_request_error])
                 eq_refl).
Defined.

(** The same failure without the marker is submitted. *)
Example unmarked_failure_is_submitted :
  List.length (submissions
                 (effects (onunhandledrejection_wrapper
                        (C := Sample.collaborators) Sample.env Sample.installed
                        [Sample.rejection_event (TypeError "Failed to fetch")]))) = 1.
Proof. vm_compute. reflexivity. Qed.

(** *** The inactive integration *)

Lemma onerror_wrapper_inactive
      {C : Collaborators} (env : Env) (self : GlobalHandlers) (arguments : list Value) :
  onerror_wrapper (with_hasIntegration false env) self arguments
  = match _oldOnErrorHandler self with
    | Some old => ([Apply old arguments], Function_apply old arguments)
    | None => ([], Ok (VBool false))
    end.
Proof.
  unfold onerror_wrapper. simpl. now destruct (_oldOnErrorHandler self).
Qed.

(** C3 on the code. With the integration no longer registered, the [onerror]
    hook hands the call to the previous handler, with the arguments it got
    and as its only effect; the rejection hook returns at once, and the
    previous handler it captured is not applied. *)
Theorem inactive_rejection_hook_skips_previous_handler
        {C : Collaborators} (env : Env) (self : GlobalHandlers)
        (old : Callable) (arguments : list Value) :
  onerror_wrapper (with_hasIntegration false env) (chained_after old self) arguments
  = ([Apply old arguments], Function_apply old arguments)
  /\ onunhandledrejection_wrapper
       (with_hasIntegration false env) (chained_after old self) arguments
     = ([], Ok VUndefined).
Proof.
  split.
  - now rewrite onerror_wrapper_inactive.
  - reflexivity.
Qed.

(** *** Chaining by the active integration *)

Section Chaining.

Context {C : Collaborators}.
Variable env : Env.
Variable self : GlobalHandlers.
Variable old : Callable.
Variable arguments : list Value.

Hypothesis active : hasIntegration env = true.

(** The [onerror] hook applies the previous handler once, as the last thing
    it does, and returns what that handler returns, unless its own
    processing throws. *)
Lemma onerror_wrapper_chains :
  _oldOnErrorHandler self = Some old ->
  (exists pre,
      onerror_wrapper env self arguments
      = (pre ++ [Apply old arguments], Function_apply old arguments)
      /\ chained_calls pre = [])
  \/ (exists x, onerror_wrapper env self arguments = ([], Throw x)).
Proof.
  intros Hold. unfold onerror_wrapper. rewrite active, Hold. simpl negb. cbv iota.
  match goal with
  | |- context [bind (lift ?r) _] => destruct r as [error|x]
  end; [|right; eexists; reflexivity].
  rewrite bind_lift_Ok.
  match goal with
  | |- context [bind (lift ?r) _] => destruct r as [message|x]
  end; [|right; eexists; reflexivity].
  rewrite bind_lift_Ok.
  destruct (isFailedOwnDelivery error) as [own|x];
    [|right; eexists; reflexivity].
  rewrite bind_lift_Ok.
  destruct (negb (shouldIgnoreOnError env) && negb own).
  - match goal with
    | |- context [bind (lift ?r) _] => destruct r as [built|x]
    end; [|right; eexists; reflexivity].
    rewrite bind_lift_Ok. left.
    exists [CaptureEvent (fst built) (snd built) error]. split; reflexivity.
  - rewrite bind_ret. left. exists []. split; reflexivity.
Qed.

(** So does the rejection hook, when the failure is neither ignored nor an
    own request: it submits, then applies the previous handler. *)
Lemma onunhandledrejection_wrapper_chains :
  _oldOnUnhandledRejectionHandler self = Some old ->
  shouldIgnoreOnError env = false ->
  isFailedOwnDelivery (rejection_reason (arg 0 arguments)) = Ok false ->
  (exists event stacktrace,
      effects (onunhandledrejection_wrapper env self arguments)
      = [CaptureEvent event stacktrace (rejection_reason (arg 0 arguments));
         Apply old arguments])
  \/ (exists x, onunhandledrejection_wrapper env self arguments = ([], Throw x)).
Proof.
  intros Hold Hign Hown. unfold onunhandledrejection_wrapper.
  rewrite active, Hold, Hign, Hown. simpl negb. cbv iota.
  rewrite bind_lift_Ok. simpl orb. cbv iota.
  match goal with
  | |- context [bind (lift ?r) _] => destruct r as [built|x]
  end; [|right; eexists; reflexivity].
  rewrite bind_lift_Ok. left. exists (fst built), (snd built).
  unfold invoke, emit, ret, bind, effects. simpl.
  now destruct (Function_apply old arguments).
Qed.

End Chaining.

(** When [shouldIgnoreOnError] answers yes, the [onerror] hook submits
    nothing and still applies the previous handler. *)
Lemma ignored_onerror_still_chains
      {C : Collaborators} (env : Env) (self : GlobalHandlers)
      (old : Callable) (arguments : list Value) (error message : Value) (own : bool) :
  onerror_failure arguments = Ok error ->
  (if isErrorEvent (arg 0 arguments)
   then Js.get (arg 0 arguments) "message"
   else Ok (arg 0 arguments)) = Ok message ->
  isFailedOwnDelivery error = Ok own ->
  onerror_wrapper (with_shouldIgnoreOnError true (with_hasIntegration true env))
                  (chained_after old self) arguments
  = ([Apply old arguments], Function_apply old arguments).
Proof.
  intros Hfail Hmsg Hown.
  unfold onerror_failure in Hfail.
  unfold onerror_wrapper, with_shouldIgnoreOnError, with_hasIntegration, chained_after.
  cbn [hasIntegration shouldIgnoreOnError _oldOnErrorHandler negb andb].
  rewrite Hfail, bind_lift_Ok, Hmsg, bind_lift_Ok, Hown, bind_lift_Ok, bind_ret.
  reflexivity.
Qed.

(** C4 on the code. The integration is active and has captured a previous
    handler, and [shouldIgnoreOnError] answers yes: the rejection hook has no
    effect at all, so the handler it captured is not applied.  The same
    happens for a reason that carries the own-request marker. *)
Theorem ignored_rejection_skips_previous_handler
        {C : Collaborators} (env : Env) (self : GlobalHandlers)
        (old : Callable) (arguments : list Value) :
  effects (onunhandledrejection_wrapper
             (with_shouldIgnoreOnError true (with_hasIntegration true env))
             (chained_after old self) arguments)
  = []
  /\ onunhandledrejection_wrapper
       (with_hasIntegration true env) (chained_after old self)
       [Sample.rejection_event Sample.own_request_error]
     = ([], Ok VUndefined).
Proof.
  split.
  - unfold onunhandledrejection_wrapper. simpl.
    destruct (isFailedOwnDelivery (rejection_reason (arg 0 arguments))); reflexivity.
  - apply onunhandledrejection_own_request_not_submitted. reflexivity.
Qed.

(** *** The hooks at work *)

(** The [onerror] hook, called with an event object as its message: the
    trace it submits along with the event has the replaced message. *)
Example onerror_with_event_as_message :
  map (fun e => match e with
                | CaptureEvent _ hint_stack _ => Some (st_message hint_stack)
                | _ => None
                end)
      (effects (onerror_wrapper (C := Sample.collaborators) Sample.env Sample.installed
                                [Sample.event_as_message]))
  = [Some (VStr "No error message"); None].
Proof. vm_compute. reflexivity. Qed.

(** A rejection with the reason 42, reported and then handed on. *)
Example rejection_42_is_chained :
  map is_submission
      (effects (onunhandledrejection_wrapper
                  (C := Sample.collaborators) Sample.env Sample.installed
                  [Sample.rejection_event (VNum 42)]))
  = [true; false].
Proof. vm_compute. reflexivity. Qed.

(** Set up on a fresh page, then triggered: the host's handler is applied
    once, with the arguments of the call, after the submission. *)
Example setup_then_trigger :
  let s := snd (setupOnce Sample.fresh) in
  let arguments := [VStr "Uncaught TypeError: x is not a function";
                    VStr "http://localhost/app.js"; VNum 3; VNum 14; VUndefined] in
  map is_submission
      (effects (trigger_onerror (C := Sample.collaborators) Sample.env s arguments))
  = [true; false]
  /\ chained_calls
       (effects (trigger_onerror (C := Sample.collaborators) Sample.env s arguments))
     = [Apply Sample.host arguments]
  /\ completion (trigger_onerror (C := Sample.collaborators) Sample.env s arguments)
     = Ok (VBool true).
Proof. vm_compute. repeat split; reflexivity. Qed.


(** * Further properties *)

(** ** The label pattern, in general *)

Lemma ERROR_TYPES_RE_pieces :
  ERROR_TYPES_RE
  = Regex.Cat Regex.Bol
      (Regex.Cat (Regex.Opt RE_uncaught)
                 (Regex.Cat (Regex.Opt RE_label) RE_message)).
Proof. reflexivity. Qed.

Lemma length_list_ascii_of_string (s : string) :
  List.length (list_ascii_of_string s) = String.length s.
Proof.
  induction s as [|c s IH]; simpl; congruence.
Qed.

Lemma list_ascii_of_string_app (a b : string) :
  list_ascii_of_string (a ++ b)%string
  = list_ascii_of_string a ++ list_ascii_of_string b.
Proof.
  induction a as [|c a IH]; simpl; congruence.
Qed.

Lemma strip_prefix_app (l1 l2 cs : list ascii) :
  strip_prefix (l1 ++ l2) cs
  = match strip_prefix l1 cs with
    | Some cs' => strip_prefix l2 cs'
    | None => None
    end.
Proof.
  revert cs. induction l1 as [|c l1 IH]; intros cs; simpl; [reflexivity|].
  destruct cs as [|c' cs]; [reflexivity|].
  destruct (c =? c')%char; [apply IH | reflexivity].
Qed.

Lemma strip_prefix_Some (l cs r : list ascii) :
  strip_prefix l cs = Some r <-> cs = l ++ r.
Proof.
  revert cs. induction l as [|c l IH]; intros cs; simpl.
  - split; congruence.
  - destruct cs as [|c' cs]; [split; discriminate|].
    destruct (c =? c')%char eqn:E.
    + apply Ascii.eqb_eq in E. subst c'. rewrite IH. split; congruence.
    + split; [discriminate|]. intros H. inversion H. subst.
      rewrite Ascii.eqb_refl in E. discriminate.
Qed.

Lemma has_line_terminator_app (a b : list ascii) :
  has_line_terminator (a ++ b) = has_line_terminator a || has_line_terminator b.
Proof. apply existsb_app. Qed.

Section RegexRun.

Variable R : Type.

Lemma run_Lit (l : string) (cur : Regex.cursor) (caps : Regex.Captures)
      (k : Regex.cursor -> Regex.Captures -> option R) :
  Regex.run (Regex.Lit l) cur caps k
  = match strip_prefix (list_ascii_of_string l) (Regex.rest cur) with
    | Some r => k (Regex.Cursor (Regex.pos cur + String.length l) r) caps
    | None => None
    end.
Proof.
  revert cur. induction l as [|c l IH]; intros [p cs]; simpl.
  - now rewrite Nat.add_0_r.
  - destruct cs as [|c' cs]; [reflexivity|].
    destruct (c =? c')%char; [|reflexivity].
    rewrite IH. simpl. now rewrite Nat.add_succ_r.
Qed.

Lemma dotStar_to_end (k : Regex.cursor -> option R) :
  (forall p c cs, k (Regex.Cursor p (c :: cs)) = None) ->
  forall cs p,
    Regex.dotStar p cs k
    = if has_line_terminator cs then None
      else k (Regex.Cursor (p + List.length cs) []).
Proof.
  intros Hk. induction cs as [|c cs IH]; intros p; simpl.
  - now rewrite Nat.add_0_r.
  - destruct (Regex.isLineTerminator c); simpl; [apply Hk|].
    rewrite IH. destruct (has_line_terminator cs); [apply Hk|].
    rewrite Nat.add_succ_r. simpl.
    now destruct (k (Regex.Cursor (S (p + List.length cs)) [])); [|apply Hk].
Qed.

Lemma run_alternatives (stem : string) (stems : list string)
      (cur : Regex.cursor) (caps : Regex.Captures)
      (k : Regex.cursor -> Regex.Captures -> option R) :
  Regex.run (alternatives stem stems) cur caps k
  = first_success (fun st => Regex.run (Regex.Lit st) cur caps k) (stem :: stems).
Proof.
  revert stem. induction stems as [|stem' stems IH]; intros stem.
  - simpl. now destruct (Regex.run (Regex.Lit stem) cur caps k).
  - change (alternatives stem (stem' :: stems))
      with (Regex.Alt (Regex.Lit stem) (alternatives stem' stems)).
    cbn [Regex.run]. rewrite IH. reflexivity.
Qed.

End RegexRun.

Lemma run_message (p : nat) (cs : list ascii) (caps : Regex.Captures) :
  Regex.run RE_message (Regex.Cursor p cs) caps (fun _ caps' => Some caps')
  = if has_line_terminator cs then None
    else Some ((2, string_of_list_ascii cs) :: caps).
Proof.
  unfold RE_message. cbn [Regex.run Regex.pos Regex.rest].
  rewrite dotStar_to_end by reflexivity.
  destruct (has_line_terminator cs); [reflexivity|].
  cbn [Regex.pos Regex.rest].
  replace (p + List.length cs - p) with (List.length cs) by lia.
  now rewrite firstn_all.
Qed.


Lemma attempt_label (stem : string) (p : nat) (cs : list ascii)
      (caps : Regex.Captures) :
  has_line_terminator (list_ascii_of_string stem) = false ->
  Regex.run (Regex.Lit stem) (Regex.Cursor p cs) caps
    (fun cur' caps' =>
       Regex.run (Regex.Lit "Error") cur' caps'
         (fun cur'0 caps'0 =>
            Regex.run (Regex.Lit ": ") cur'0
              ((1, string_of_list_ascii (firstn (Regex.pos cur'0 - p) cs)) :: caps'0)
              (fun c caps'1 =>
                 Regex.run RE_message c caps'1 (fun _ caps'' => Some caps''))))
  = labelled cs caps
      (match strip_prefix (list_ascii_of_string (stem ++ "Error: ")%string) cs with
       | Some cs' => Some ((stem ++ "Error")%string, cs')
       | None => None
       end).
Proof.
  intros Hstem.
  change (stem ++ "Error: ")%string with (stem ++ ("Error" ++ ": "))%string.
  rewrite !list_ascii_of_string_app, !strip_prefix_app.
  rewrite run_Lit. cbn [Regex.rest Regex.pos].
  destruct (strip_prefix (list_ascii_of_string stem) cs) as [r1|] eqn:E1;
    [|reflexivity].
  rewrite strip_prefix_app, run_Lit. cbn [Regex.rest Regex.pos].
  destruct (strip_prefix (list_ascii_of_string "Error") r1) as [r2|] eqn:E2;
    [|reflexivity].
  rewrite run_Lit. cbn [Regex.rest Regex.pos].
  destruct (strip_prefix (list_ascii_of_string ": ") r2) as [r3|] eqn:E3;
    [|reflexivity].
  rewrite run_message.
  apply strip_prefix_Some in E1, E2, E3. subst cs r1 r2.
  unfold labelled. rewrite !has_line_terminator_app, Hstem.
  change (has_line_terminator (list_ascii_of_string "Error")) with false.
  change (has_line_terminator (list_ascii_of_string ": ")) with false.
  cbn [orb].
  destruct (has_line_terminator r3); [reflexivity|].
  replace (p + String.length stem + String.length "Error" - p)
    with (List.length (list_ascii_of_string stem ++ list_ascii_of_string "Error") + 0)
    by (rewrite length_app, !length_list_ascii_of_string; lia).
  rewrite app_assoc, firstn_app_2. cbn [firstn]. rewrite app_nil_r.
  rewrite <- list_ascii_of_string_app, string_of_list_ascii_of_string.
  reflexivity.
Qed.

Lemma first_success_ext {A B} (f g : A -> option B) (l : list A) :
  (forall x, In x l -> f x = g x) -> first_success f l = first_success g l.
Proof.
  induction l as [|x l IH]; intros H; simpl; [reflexivity|].
  rewrite (H x (or_introl eq_refl)), IH; [reflexivity|].
  intros y Hy. apply H. now right.
Qed.

Lemma first_success_labels (stems : list string) (cs : list ascii)
      (caps : Regex.Captures) :
  first_success
    (fun stem =>
       labelled cs caps
         (match strip_prefix (list_ascii_of_string (stem ++ "Error: ")%string) cs with
          | Some cs' => Some ((stem ++ "Error")%string, cs')
          | None => None
          end)) stems
  = labelled cs caps (strip_label stems cs).
Proof.
  induction stems as [|stem stems IH]; simpl; [reflexivity|].
  destruct (strip_prefix (list_ascii_of_string (stem ++ "Error: ")%string) cs)
    as [cs'|]; [|exact IH].
  simpl. destruct (has_line_terminator cs) eqn:T; [|reflexivity].
  rewrite IH. unfold labelled. rewrite T.
  now destruct (strip_label stems cs) as [[l r]|].
Qed.

Lemma stems_have_no_line_terminator (stem : string) :
  In stem LABEL_STEMS -> has_line_terminator (list_ascii_of_string stem) = false.
Proof.
  simpl. intros H. repeat (destruct H as [H|H]; [subst; reflexivity|]).
  destruct H.
Qed.

Lemma run_label (p : nat) (cs : list ascii) (caps : Regex.Captures) :
  Regex.run (Regex.Opt RE_label) (Regex.Cursor p cs) caps
    (fun c caps' => Regex.run RE_message c caps' (fun _ caps'' => Some caps''))
  = from_label cs caps.
Proof.
  unfold RE_label. cbn [Regex.run Regex.pos Regex.rest].
  rewrite run_alternatives.
  change ("Eval" :: tl LABEL_STEMS) with LABEL_STEMS.
  erewrite first_success_ext;
    [|intros stem Hin; apply attempt_label, stems_have_no_line_terminator, Hin].
  rewrite first_success_labels, run_message.
  unfold labelled, from_label.
  destruct (has_line_terminator cs);
    now destruct (strip_label LABEL_STEMS cs) as [[l r]|].
Qed.

Lemma from_label_None (cs : list ascii) (caps : Regex.Captures) :
  from_label cs caps = None <-> has_line_terminator cs = true.
Proof.
  unfold from_label. destruct (has_line_terminator cs).
  - split; reflexivity.
  - destruct (strip_label LABEL_STEMS cs) as [[l r]|]; split; discriminate.
Qed.

Lemma from_label_fallback (cs cs' : list ascii) (caps : Regex.Captures) :
  (has_line_terminator cs = true -> has_line_terminator cs' = true) ->
  match from_label cs caps with
  | Some x => Some x
  | None => from_label cs' caps
  end = from_label cs caps.
Proof.
  intros H. destruct (from_label cs caps) eqn:E; [reflexivity|].
  apply from_label_None. apply H. now apply from_label_None in E.
Qed.

Lemma has_line_terminator_strip_uncaught (cs : list ascii) :
  has_line_terminator (strip_uncaught cs) = has_line_terminator cs.
Proof.
  unfold strip_uncaught. destruct cs as [|c cs0]; [reflexivity|].
  destruct ((c =? "U")%char || (c =? "u")%char) eqn:U; [|reflexivity].
  assert (Hc : Regex.isLineTerminator c = false).
  { apply orb_true_iff in U.
    destruct U as [U|U]; apply Ascii.eqb_eq in U; subst c; reflexivity. }
  destruct (strip_prefix (list_ascii_of_string "ncaught ") cs0) as [cs1|] eqn:E1;
    [|reflexivity].
  apply strip_prefix_Some in E1. subst cs0.
  destruct (strip_prefix (list_ascii_of_string "exception: ") cs1) as [cs2|] eqn:E2.
  - apply strip_prefix_Some in E2. subst cs1.
    cbn [has_line_terminator existsb]. fold (has_line_terminator).
    rewrite Hc. change (existsb Regex.isLineTerminator) with has_line_terminator.
    rewrite !has_line_terminator_app. reflexivity.
  - cbn [has_line_terminator existsb]. rewrite Hc.
    change (existsb Regex.isLineTerminator) with has_line_terminator.
    rewrite !has_line_terminator_app. reflexivity.
Qed.

Lemma run_uncaught (kB : Regex.cursor -> Regex.Captures -> option Regex.Captures)
      (p : nat) (cs : list ascii) (caps : Regex.Captures) :
  (forall q r caps', kB (Regex.Cursor q r) caps' = from_label r caps') ->
  Regex.run (Regex.Opt RE_uncaught) (Regex.Cursor p cs) caps kB
  = from_label (strip_uncaught cs) caps.
Proof.
  intros HkB.
  pose proof (has_line_terminator_strip_uncaught cs) as HT.
  unfold RE_uncaught. cbn [Regex.run Regex.pos Regex.rest].
  unfold strip_uncaught in *.
  destruct cs as [|c cs0]; [now rewrite HkB|].
  cbn [existsb]. rewrite orb_false_r, (Ascii.eqb_sym "U" c), (Ascii.eqb_sym "u" c).
  destruct ((c =? "U")%char || (c =? "u")%char); [|now rewrite HkB].
  rewrite run_Lit. cbn [Regex.pos Regex.rest].
  destruct (strip_prefix (list_ascii_of_string "ncaught ") cs0) as [cs1|];
    [|now rewrite HkB].
  cbn [Regex.run]. rewrite run_Lit. cbn [Regex.pos Regex.rest].
  destruct (strip_prefix (list_ascii_of_string "exception: ") cs1) as [cs2|] eqn:E2.
  - rewrite !HkB.
    apply strip_prefix_Some in E2.
    rewrite (from_label_fallback cs2 cs1)
      by (subst cs1; rewrite has_line_terminator_app; intros ->; apply orb_true_r).
    apply from_label_fallback. now rewrite HT.
  - rewrite !HkB. apply from_label_fallback. now rewrite HT.
Qed.

Lemma search_after_start (cs : list ascii) (p : nat) :
  Regex.search ERROR_TYPES_RE (S p) cs = None.
Proof.
  rewrite ERROR_TYPES_RE_pieces.
  revert p. induction cs as [|c cs IH]; intros p; cbn [Regex.search Regex.run Regex.pos Nat.eqb];
    [reflexivity | apply IH].
Qed.

Lemma String_match_spec (s : string) :
  Regex.String_match s ERROR_TYPES_RE
  = from_label (strip_uncaught (list_ascii_of_string s)) [].
Proof.
  unfold Regex.String_match.
  assert (E : forall cs,
             Regex.run ERROR_TYPES_RE (Regex.Cursor 0 cs) []
                       (fun _ caps => Some caps)
             = from_label (strip_uncaught cs) []).
  { intros cs. rewrite ERROR_TYPES_RE_pieces.
    change (Regex.run (Regex.Opt RE_uncaught) (Regex.Cursor 0 cs) []
              (fun c caps =>
                 Regex.run (Regex.Opt RE_label) c caps
                   (fun c' caps' => Regex.run RE_message c' caps'
                                      (fun _ caps'' => Some caps'')))
            = from_label (strip_uncaught cs) []).
    apply run_uncaught. intros q r caps'. apply run_label. }
  destruct (list_ascii_of_string s) as [|c cs]; cbn [Regex.search]; rewrite E.
  - now destruct (from_label (strip_uncaught []) []).
  - rewrite search_after_start.
    now destruct (from_label (strip_uncaught (c :: cs)) []).
Qed.

(** X1. For every message string of code units below 256, the name and
    message the label pattern gives are those of plain prefix stripping:
    nothing is parsed from a message with a line feed or a carriage return;
    otherwise "Uncaught " or "uncaught " is dropped, then "exception: ", then
    the first known label followed by ": " becomes the name, and what is left
    is the message.  (A message with U+2028 or U+2029 is not such a string;
    the pattern does not match it either.) *)
Theorem parse_label_refines_prefix_stripping (s : string) :
  parse_label (VStr s) = label_spec s.
Proof.
  unfold parse_label, label_spec. rewrite String_match_spec. unfold from_label.
  rewrite has_line_terminator_strip_uncaught.
  destruct (has_line_terminator (list_ascii_of_string s)); [reflexivity|].
  now destruct (strip_label LABEL_STEMS (strip_uncaught (list_ascii_of_string s)))
    as [[l r]|].
Qed.

(** A message that goes on after a line feed keeps its prefix and label. *)
Example multi_line_message_keeps_its_label :
  parse_label (VStr (String.append "Uncaught TypeError: x is not a function"
                                  (String "010" "    at app.js:3:14")))
  = (VUndefined,
     VStr (String.append "Uncaught TypeError: x is not a function"
                         (String "010" "    at app.js:3:14"))).
Proof. vm_compute. reflexivity. Qed.

(** X2. On a message of code units below 256, the label pattern fails
    exactly when the message contains a line feed or a carriage return, the
    two line terminators such a message can hold. *)
Theorem label_pattern_matches_single_lines (s : string) :
  Regex.String_match s ERROR_TYPES_RE = None
  <-> has_line_terminator (list_ascii_of_string s) = true.
Proof.
  rewrite String_match_spec, from_label_None.
  now rewrite has_line_terminator_strip_uncaught.
Qed.

Lemma string_of_list_ascii_app (a b : list ascii) :
  string_of_list_ascii (a ++ b)
  = (string_of_list_ascii a ++ string_of_list_ascii b)%string.
Proof.
  induction a as [|c a IH]; simpl; congruence.
Qed.

Lemma string_append_assoc (a b c : string) :
  ((a ++ b) ++ c = a ++ (b ++ c))%string.
Proof.
  induction a as [|x a IH]; simpl; congruence.
Qed.

Lemma strip_uncaught_prefix (cs : list ascii) :
  exists u, In u UNCAUGHT_PREFIXES
            /\ cs = list_ascii_of_string u ++ strip_uncaught cs.
Proof.
  unfold strip_uncaught. destruct cs as [|c cs0]; [exists ""; simpl; auto|].
  destruct ((c =? "U")%char || (c =? "u")%char) eqn:U;
    [|exists ""; simpl; auto].
  destruct (strip_prefix (list_ascii_of_string "ncaught ") cs0) as [cs1|] eqn:E1;
    [|exists ""; simpl; auto].
  apply strip_prefix_Some in E1. subst cs0.
  apply orb_true_iff in U.
  destruct (strip_prefix (list_ascii_of_string "exception: ") cs1) as [cs2|] eqn:E2.
  - apply strip_prefix_Some in E2. subst cs1.
    destruct U as [U|U]; apply Ascii.eqb_eq in U; subst c.
    + exists "Uncaught exception: ". simpl. auto 10.
    + exists "uncaught exception: ". simpl. auto 10.
  - destruct U as [U|U]; apply Ascii.eqb_eq in U; subst c.
    + exists "Uncaught ". simpl. auto.
    + exists "uncaught ". simpl. auto.
Qed.

Lemma strip_label_prefix (stems : list string) (cs cs' : list ascii) (label : string) :
  strip_label stems cs = Some (label, cs') ->
  In label (map (fun stem : string => (stem ++ "Error")%string) stems)
  /\ cs = list_ascii_of_string (label ++ ": ")%string ++ cs'.
Proof.
  induction stems as [|stem stems IH]; simpl; [discriminate|].
  destruct (strip_prefix (list_ascii_of_string (stem ++ "Error: ")%string) cs)
    as [r|] eqn:E.
  - intros H. inversion H. subst. apply strip_prefix_Some in E. split; [now left|].
    rewrite E, string_append_assoc. reflexivity.
  - intros H. destruct (IH H) as [Hin Hcs]. split; [now right | exact Hcs].
Qed.

(** X3. Label parsing only ever drops a prefix: the parsed message is a
    string and the end of the input; what precedes it is one of the
    "Uncaught" prefixes (or nothing), followed, when a name is parsed, by the
    name and ": "; and a parsed name is one of the eight known labels. *)
Theorem parsed_message_is_a_suffix (s : string) :
  exists u msg,
    In u UNCAUGHT_PREFIXES
    /\ snd (parse_label (VStr s)) = VStr msg
    /\ ((fst (parse_label (VStr s)) = VUndefined /\ s = (u ++ msg)%string)
        \/ (exists label,
               In label ERROR_LABELS
               /\ fst (parse_label (VStr s)) = VStr label
               /\ s = (u ++ label ++ ": " ++ msg)%string)).
Proof.
  unfold parse_label. rewrite String_match_spec. unfold from_label.
  rewrite has_line_terminator_strip_uncaught.
  destruct (has_line_terminator (list_ascii_of_string s)).
  - exists "", s. split; [now left|]. split; [reflexivity|].
    left. split; reflexivity.
  - destruct (strip_uncaught_prefix (list_ascii_of_string s)) as (u & Hu & Hs).
    apply (f_equal string_of_list_ascii) in Hs.
    rewrite string_of_list_ascii_of_string, string_of_list_ascii_app,
      string_of_list_ascii_of_string in Hs.
    destruct (strip_label LABEL_STEMS (strip_uncaught (list_ascii_of_string s)))
      as [[label r]|] eqn:L.
    + apply strip_label_prefix in L. destruct L as [Hin Hr].
      exists u, (string_of_list_ascii r). split; [exact Hu|].
      split; [reflexivity|]. right. exists label.
      split; [exact Hin|]. split; [reflexivity|].
      rewrite Hs, Hr, string_of_list_ascii_app, string_of_list_ascii_of_string.
      now rewrite string_append_assoc.
    + exists u, (string_of_list_ascii (strip_uncaught (list_ascii_of_string s))).
      split; [exact Hu|]. split; [reflexivity|]. left. split; [reflexivity|].
      exact Hs.
Qed.

Lemma label_pattern_matches_single_lines_witness :
  Regex.String_match Sample.two_lines ERROR_TYPES_RE = None.
Proof.
  apply (proj2 (label_pattern_matches_single_lines Sample.two_lines)).
  reflexivity.
Defined.

Lemma parse_label_message_string (s : string) :
  isString (snd (parse_label (VStr s))) = true.
Proof.
  unfold parse_label. rewrite String_match_spec. unfold from_label.
  destruct (has_line_terminator _); [reflexivity|].
  now destruct (strip_label _ _) as [[l r]|].
Qed.

(** ** The outcomes of the hooks *)

Section HookOutcomes.

Context {C : Collaborators}.
Variable env : Env.
Variable self : GlobalHandlers.
Variable arguments : list Value.

Lemma built_trace_mechanism (st : StackTrace) (handler : string) (error : Value)
      (event : Event) (st' : StackTrace) :
  _eventFromGlobalHandler env st handler error = Ok (event, st') ->
  st_mechanism st' = st_mechanism st.
Proof.
  intros H. apply _eventFromGlobalHandler_trace in H.
  rewrite (repair_message_frame st H). reflexivity.
Qed.

Lemma synthetic_stack_mechanism (message url line column : Value) :
  st_mechanism (synthetic_stack env message url line column) = "onerror".
Proof.
  unfold synthetic_stack. now destruct (parse_label message).
Qed.

(** X4. A call of the [onerror] hook ends in one of three ways.  It throws
    before any effect.  Or it only does what it does with the previous
    handler: apply it to the arguments of the call and return its result, or
    return [false] when there is none.  Or it first submits one event, with a
    trace tagged "onerror" and the extracted failure as the original
    exception, and then does the same with the previous handler; this it
    only does when the integration is active, the failure is not ignored and
    does not carry the own-request marker. *)
Theorem onerror_hook_outcomes :
  (exists x, onerror_wrapper env self arguments = ([], Throw x))
  \/ onerror_wrapper env self arguments = chain_onerror self arguments
  \/ (exists event stacktrace error,
         onerror_failure arguments = Ok error
         /\ st_mechanism stacktrace = "onerror"
         /\ hasIntegration env = true
         /\ shouldIgnoreOnError env = false
         /\ isFailedOwnDelivery error = Ok false
         /\ onerror_wrapper env self arguments
            = (CaptureEvent event stacktrace error
                 :: effects (chain_onerror self arguments),
               completion (chain_onerror self arguments))).
Proof.
  assert (Hchain : match _oldOnErrorHandler self with
                   | Some old => invoke old arguments
                   | None => ret (VBool false)
                   end = chain_onerror self arguments).
  { unfold chain_onerror. now destruct (_oldOnErrorHandler self). }
  unfold onerror_wrapper, onerror_failure. rewrite Hchain.
  destruct (hasIntegration env); cbn [negb]; [|right; left; reflexivity].
  match goal with
  | |- context [bind (lift ?r) _] => destruct r as [error|x]
  end; [|left; eexists; reflexivity].
  rewrite bind_lift_Ok.
  match goal with
  | |- context [bind (lift ?r) _] => destruct r as [message|x]
  end; [|left; eexists; reflexivity].
  rewrite bind_lift_Ok.
  destruct (isFailedOwnDelivery error) as [own|x] eqn:Hown;
    [|left; eexists; reflexivity].
  rewrite bind_lift_Ok.
  destruct (shouldIgnoreOnError env); cbn [negb andb];
    [rewrite bind_ret; right; left; reflexivity|].
  destruct own; cbn [negb]; [rewrite bind_ret; right; left; reflexivity|].
  match goal with
  | |- context [bind (lift ?r) _] => destruct r as [[event st']|x] eqn:B
  end; [|left; eexists; reflexivity].
  rewrite bind_lift_Ok. right. right. exists event, st', error.
  repeat (split; [reflexivity|]). split.
  - rewrite (built_trace_mechanism _ _ _ B).
    destruct (Js.truthy error && isError error);
      [reflexivity | apply synthetic_stack_mechanism].
  - repeat (split; [reflexivity|]).
    unfold emit, bind, effects, completion. cbn [fst snd].
    now destruct (chain_onerror self arguments).
Qed.

(** X5. A call of the rejection hook ends in one of three ways.  It throws
    before any effect.  Or it returns [undefined] without any effect.  Or it
    submits one event, with a trace tagged "onunhandledrejection" and the
    extracted reason as the original exception, then applies the previous
    handler, if there is one, to the arguments of the call, and returns
    [undefined] unless that handler throws. *)
Theorem rejection_hook_outcomes :
  (exists x, onunhandledrejection_wrapper env self arguments = ([], Throw x))
  \/ onunhandledrejection_wrapper env self arguments = ([], Ok VUndefined)
  \/ (exists event stacktrace,
         st_mechanism stacktrace = "onunhandledrejection"
         /\ hasIntegration env = true
         /\ shouldIgnoreOnError env = false
         /\ isFailedOwnDelivery (rejection_reason (arg 0 arguments)) = Ok false
         /\ onunhandledrejection_wrapper env self arguments
            = (CaptureEvent event stacktrace (rejection_reason (arg 0 arguments))
                 :: effects (chain_onunhandledrejection self arguments),
               completion (chain_onunhandledrejection self arguments))).
Proof.
  unfold onunhandledrejection_wrapper.
  destruct (hasIntegration env); cbn [negb]; [|right; left; reflexivity].
  destruct (isFailedOwnDelivery (rejection_reason (arg 0 arguments)))
    as [own|x] eqn:Hown; [|left; eexists; reflexivity].
  rewrite bind_lift_Ok.
  destruct (shouldIgnoreOnError env); cbn [orb]; [right; left; reflexivity|].
  destruct own; [right; left; reflexivity|].
  match goal with
  | |- context [bind (lift ?r) _] => destruct r as [[event st']|x] eqn:B
  end; [|left; eexists; reflexivity].
  rewrite bind_lift_Ok. right. right. exists event, st'.
  split; [exact (built_trace_mechanism _ _ _ B)|].
  repeat (split; [reflexivity|]).
  unfold chain_onunhandledrejection, invoke, emit, ret, bind, effects, completion.
  cbn [fst snd].
  destruct (_oldOnUnhandledRejectionHandler self) as [old|]; [|reflexivity].
  now destruct (Function_apply old arguments).
Qed.

End HookOutcomes.

(** X6. While [shouldIgnoreOnError] answers yes, the [onerror] hook submits
    nothing and the rejection hook has no effect at all, whatever they are
    called with. *)
Theorem ignored_failure_is_never_submitted
        {C : Collaborators} (env : Env) (self : GlobalHandlers)
        (arguments : list Value) :
  submissions (effects (onerror_wrapper (with_shouldIgnoreOnError true env)
                                        self arguments)) = []
  /\ effects (onunhandledrejection_wrapper (with_shouldIgnoreOnError true env)
                                           self arguments) = [].
Proof.
  split.
  - unfold onerror_wrapper, with_shouldIgnoreOnError.
    cbn [hasIntegration shouldIgnoreOnError negb andb].
    destruct (hasIntegration env); cbn [negb];
      [|now destruct (_oldOnErrorHandler self)].
    match goal with
    | |- context [bind (lift ?r) _] => destruct r as [error|x]
    end; [|reflexivity].
    rewrite bind_lift_Ok.
    match goal with
    | |- context [bind (lift ?r) _] => destruct r as [message|x]
    end; [|reflexivity].
    rewrite bind_lift_Ok.
    destruct (isFailedOwnDelivery error) as [own|x]; [|reflexivity].
    rewrite bind_lift_Ok, bind_ret.
    now destruct (_oldOnErrorHandler self).
  - unfold onunhandledrejection_wrapper, with_shouldIgnoreOnError.
    cbn [hasIntegration shouldIgnoreOnError negb orb].
    destruct (hasIntegration env); [|reflexivity]. cbn [negb].
    now destruct (isFailedOwnDelivery (rejection_reason (arg 0 arguments))).
Qed.

(** X16. What the rejection hook submits depends on the extracted reason
    only: two calls whose arguments give the same reason submit the same,
    whatever else the arguments hold and whatever handler was captured. *)
Theorem rejection_submission_depends_on_reason_only
        {C : Collaborators} (env : Env) (self self' : GlobalHandlers)
        (arguments arguments' : list Value) :
  rejection_reason (arg 0 arguments) = rejection_reason (arg 0 arguments') ->
  submissions (effects (onunhandledrejection_wrapper env self arguments))
  = submissions (effects (onunhandledrejection_wrapper env self' arguments')).
Proof.
  intros H. unfold onunhandledrejection_wrapper. rewrite H.
  destruct (hasIntegration env); [|reflexivity]. cbn [negb].
  destruct (isFailedOwnDelivery (rejection_reason (arg 0 arguments')))
    as [own|x]; [|reflexivity].
  rewrite !bind_lift_Ok.
  destruct (shouldIgnoreOnError env || own); [reflexivity|].
  match goal with
  | |- context [bind (lift ?r) _] => destruct r as [built|x]
  end; [|reflexivity].
  rewrite !bind_lift_Ok.
  unfold emit, invoke, ret, bind, effects, submissions. cbn [fst snd].
  destruct (_oldOnUnhandledRejectionHandler self) as [old|],
           (_oldOnUnhandledRejectionHandler self') as [old'|];
    repeat match goal with
           | |- context [Function_apply ?f ?a] => destruct (Function_apply f a)
           end; reflexivity.
Qed.

(** X17. A rejection whose reason is a symbol, for which the stack
    computation gives the mode "failed": the hook throws an error when it
    puts the reason into the message, submits nothing and does not apply the
    previous handler. *)
Theorem symbol_rejection_throws
        {C : Collaborators} (env : Env) (self : GlobalHandlers)
        (arguments : list Value) (description : string) :
  hasIntegration env = true ->
  shouldIgnoreOnError env = false ->
  rejection_reason (arg 0 arguments) = VSymbol description ->
  st_mode (_computeStackTrace (VSymbol description)) = "failed" ->
  exists x,
    isError x = true
    /\ onunhandledrejection_wrapper env self arguments = ([], Throw x).
Proof.
  intros Hact Hrep Hreason Hmode.
  exists (TypeError "Cannot convert a Symbol value to a string").
  split; [reflexivity|].
  unfold onunhandledrejection_wrapper. rewrite Hact, Hrep, Hreason.
  cbn [negb isFailedOwnDelivery Js.truthy Js.get rbind Js.is_true].
  rewrite bind_lift_Ok. cbn [orb].
  unfold _eventFromGlobalHandler.
  rewrite repair_message_kept
    by (unfold message_kept; cbn [set_mechanism st_mechanism];
        rewrite String.eqb_refl; apply orb_true_r).
  cbn [rbind set_mechanism st_mode]. rewrite Hmode.
  reflexivity.
Qed.

Lemma chain_onerror_no_submission {C : Collaborators} (self : GlobalHandlers)
      (arguments : list Value) :
  submissions (effects (match _oldOnErrorHandler self with
                        | Some old => invoke old arguments
                        | None => ret (VBool false)
                        end)) = [].
Proof. now destruct (_oldOnErrorHandler self). Qed.

Lemma submissions_bind_unit {B} (m : M unit) (k : M B) :
  submissions (effects k) = [] ->
  submissions (effects (bind m (fun _ => k))) = submissions (effects m).
Proof.
  intros H. destruct m as [l [[]|x]]; unfold bind, effects in *; cbn [fst snd].
  - destruct k as [l' r]. cbn [fst] in *. unfold submissions in *.
    now rewrite filter_app, H, app_nil_r.
  - reflexivity.
Qed.

(** X18. What the [onerror] hook submits depends only on the failure and the
    message it extracts and on the url, line and column: two calls that
    agree on these submit the same, whatever else the arguments hold and
    whatever handler was captured. *)
Theorem onerror_submission_depends_on_extracted_values
        {C : Collaborators} (env : Env) (self self' : GlobalHandlers)
        (arguments arguments' : list Value) :
  onerror_failure arguments = onerror_failure arguments' ->
  onerror_message arguments = onerror_message arguments' ->
  arg 1 arguments = arg 1 arguments' ->
  arg 2 arguments = arg 2 arguments' ->
  arg 3 arguments = arg 3 arguments' ->
  submissions (effects (onerror_wrapper env self arguments))
  = submissions (effects (onerror_wrapper env self' arguments')).
Proof.
  unfold onerror_failure, onerror_message. intros Hf Hm H1 H2 H3.
  unfold onerror_wrapper. rewrite Hf, Hm, H1, H2, H3.
  destruct (hasIntegration env); cbn [negb];
    [|now rewrite !chain_onerror_no_submission].
  match goal with
  | |- context [bind (lift ?r) _] => destruct r as [error|x]
  end; [|reflexivity].
  rewrite !bind_lift_Ok.
  match goal with
  | |- context [bind (lift ?r) _] => destruct r as [message|x]
  end; [|reflexivity].
  rewrite !bind_lift_Ok.
  destruct (isFailedOwnDelivery error) as [own|x]; [|reflexivity].
  rewrite !bind_lift_Ok.
  now rewrite !submissions_bind_unit by apply chain_onerror_no_submission.
Qed.

Section Legacy.

Context {C : Collaborators}.
Variable env : Env.
Variable self : GlobalHandlers.
Variable arguments : list Value.

Hypothesis active : hasIntegration env = true.
Hypothesis reported : shouldIgnoreOnError env = false.
Hypothesis no_error : Js.truthy (arg 4 arguments) = false.

Lemma falsy_not_ErrorEvent (v : Value) : Js.truthy v = false -> isErrorEvent v = false.
Proof. now destruct v. Qed.

Lemma falsy_not_own (v : Value) : Js.truthy v = false -> isFailedOwnDelivery v = Ok false.
Proof. unfold isFailedOwnDelivery. now intros ->. Qed.

Lemma onerror_wrapper_without_error (message : Value) :
  (if isErrorEvent (arg 0 arguments)
   then Js.get (arg 0 arguments) "message"
   else Ok (arg 0 arguments)) = Ok message ->
  onerror_wrapper env self arguments
  = bind (bind (lift (_eventFromGlobalHandler
                        env
                        (synthetic_stack env message (arg 1 arguments)
                                         (arg 2 arguments) (arg 3 arguments))
                        "onerror" (arg 4 arguments)))
               (fun built => emit (CaptureEvent (fst built) (snd built)
                                                (arg 4 arguments))))
         (fun _ => match _oldOnErrorHandler self with
                   | Some old => invoke old arguments
                   | None => ret (VBool false)
                   end).
Proof.
  intros Hmsg. unfold onerror_wrapper.
  rewrite active, reported, (falsy_not_ErrorEvent _ no_error). cbn [negb andb].
  rewrite bind_lift_Ok, Hmsg, bind_lift_Ok, no_error. cbn [andb].
  rewrite (falsy_not_own _ no_error), bind_lift_Ok. reflexivity.
Qed.

Lemma string_message_is_built (m : string) (url line column error : Value) :
  let stacktrace := synthetic_stack env (VStr m) url line column in
  _eventFromGlobalHandler env stacktrace "onerror" error
  = Ok (addExceptionTypeValue
          (eventFromStacktrace stacktrace) "" "Error"
          {| mech_data := mechanism_data stacktrace;
             mech_handled := false;
             mech_type := "onerror" |},
        stacktrace).
Proof.
  intros stacktrace.
  assert (K : message_kept stacktrace = true).
  { unfold message_kept, stacktrace, synthetic_stack.
    pose proof (parse_label_message_string m) as S.
    destruct (parse_label (VStr m)). simpl in *. now rewrite S. }
  assert (O : st_original stacktrace = VUndefined).
  { unfold stacktrace, synthetic_stack. now destruct (parse_label (VStr m)). }
  unfold _eventFromGlobalHandler. rewrite (repair_message_kept _ K).
  cbn [rbind]. change ("onerror" =? "onunhandledrejection") with false.
  cbn [andb]. rewrite O. reflexivity.
Qed.

End Legacy.

(** X7. The [onerror] hook called with a string message and no error
    object (the fifth argument is falsy), the integration being active and
    the failure not ignored: it does not throw, it submits one event with
    the one-frame trace built from the message, url, line and column, and
    then does what it does with the previous handler. *)
Theorem onerror_reports_string_message
        {C : Collaborators} (env : Env) (self : GlobalHandlers)
        (arguments : list Value) (m : string) :
  hasIntegration env = true ->
  shouldIgnoreOnError env = false ->
  arg 0 arguments = VStr m ->
  Js.truthy (arg 4 arguments) = false ->
  exists event,
    _eventFromGlobalHandler
      env
      (synthetic_stack env (VStr m) (arg 1 arguments) (arg 2 arguments)
                       (arg 3 arguments))
      "onerror" (arg 4 arguments)
    = Ok (event,
          synthetic_stack env (VStr m) (arg 1 arguments) (arg 2 arguments)
                          (arg 3 arguments))
    /\ onerror_wrapper env self arguments
       = (CaptureEvent event
            (synthetic_stack env (VStr m) (arg 1 arguments) (arg 2 arguments)
                             (arg 3 arguments))
            (arg 4 arguments)
            :: effects (chain_onerror self arguments),
          completion (chain_onerror self arguments)).
Proof.
  intros Hact Hrep Hmsg Herr.
  eexists. split; [apply string_message_is_built|].
  rewrite (onerror_wrapper_without_error env self arguments Hact Hrep Herr (message := VStr m))
    by now rewrite Hmsg.
  rewrite string_message_is_built, bind_lift_Ok.
  unfold emit, bind, chain_onerror, invoke, ret, effects, completion. cbn [fst snd].
  now destruct (_oldOnErrorHandler self).
Qed.

(** X8. The [onerror] hook called with [undefined] or [null] as the message
    and no error object, the integration being active and the failure not
    ignored: the read of [message.error] in event building throws, so the
    hook throws an error, submits nothing and does not apply the previous
    handler. *)
Theorem onerror_throws_on_missing_message
        {C : Collaborators} (env : Env) (self : GlobalHandlers)
        (arguments : list Value) :
  hasIntegration env = true ->
  shouldIgnoreOnError env = false ->
  arg 0 arguments = VUndefined \/ arg 0 arguments = VNull ->
  Js.truthy (arg 4 arguments) = false ->
  exists x,
    isError x = true
    /\ onerror_wrapper env self arguments = ([], Throw x).
Proof.
  intros Hact Hrep Hmsg Herr.
  exists (TypeError "Cannot read property error"). split; [reflexivity|].
  rewrite (onerror_wrapper_without_error env self arguments Hact Hrep Herr
             (message := arg 0 arguments))
    by (destruct Hmsg as [-> | ->]; reflexivity).
  destruct Hmsg as [-> | ->]; reflexivity.
Qed.

(** X9. Installing the [onerror] hook over a handler of the host and then
    triggering it while the integration is not registered does what
    triggering the host's handler did before the installation. *)
Theorem inactive_onerror_hook_is_transparent
        {C : Collaborators} (env : Env) (s : State) (id : nat)
        (arguments : list Value) :
  _onErrorHandlerInstalled (instance s) = false ->
  onerror (_global s) = Some (HostFunction id) ->
  trigger_onerror (with_hasIntegration false env)
                  (_installGlobalOnErrorHandler s) arguments
  = trigger_onerror env s arguments.
Proof.
  intros Hflag Hslot.
  destruct (first_install_onerror s Hflag) as [Hold Hnew].
  unfold trigger_onerror. rewrite Hnew, Hslot. cbn [call].
  rewrite onerror_wrapper_inactive, Hold, Hslot. reflexivity.
Qed.

(** ** More on installation *)

Lemma install_onunhandledrejection_keeps_options (s : State) :
  _options (instance (_installGlobalOnUnhandledRejectionHandler s))
  = _options (instance s).
Proof.
  unfold _installGlobalOnUnhandledRejectionHandler.
  now destruct (_onUnhandledRejectionHandlerInstalled (instance s)).
Qed.

Lemma setupOnce_state (s : State) :
  snd (setupOnce s)
  = (if opt_onunhandledrejection (_options (instance s))
     then _installGlobalOnUnhandledRejectionHandler else fun s' => s')
      ((if opt_onerror (_options (instance s))
        then _installGlobalOnErrorHandler else fun s' => s')
         (set_stackTraceLimit s 50)).
Proof.
  unfold setupOnce. cbn [set_stackTraceLimit instance].
  destruct (opt_onerror (_options (instance s))).
  - rewrite install_onerror_keeps_options. cbn [set_stackTraceLimit instance].
    now destruct (opt_onunhandledrejection (_options (instance s))).
  - cbn [set_stackTraceLimit instance].
    now destruct (opt_onunhandledrejection (_options (instance s))).
Qed.

Lemma setupOnce_log (s : State) :
  fst (setupOnce s)
  = AssignStackTraceLimit 50
      :: (if opt_onerror (_options (instance s))
          then [LoggerLog "Global Handler attached: onerror"] else [])
      ++ (if opt_onunhandledrejection (_options (instance s))
          then [LoggerLog "Global Handler attached: onunhandledrejection"] else []).
Proof.
  unfold setupOnce. cbn [set_stackTraceLimit instance].
  destruct (opt_onerror (_options (instance s))).
  - rewrite install_onerror_keeps_options. cbn [set_stackTraceLimit instance].
    now destruct (opt_onunhandledrejection (_options (instance s))).
  - cbn [set_stackTraceLimit instance].
    now destruct (opt_onunhandledrejection (_options (instance s))).
Qed.

Lemma setupOnce_options (s : State) :
  _options (instance (snd (setupOnce s))) = _options (instance s).
Proof.
  rewrite setupOnce_state.
  destruct (opt_onunhandledrejection (_options (instance s)));
    [rewrite install_onunhandledrejection_keeps_options|];
    (destruct (opt_onerror (_options (instance s)));
     [rewrite install_onerror_keeps_options|]); reflexivity.
Qed.

(** X12. The two install operations commute. *)
Theorem installs_commute (s : State) :
  _installGlobalOnErrorHandler (_installGlobalOnUnhandledRejectionHandler s)
  = _installGlobalOnUnhandledRejectionHandler (_installGlobalOnErrorHandler s).
Proof.
  unfold _installGlobalOnErrorHandler, _installGlobalOnUnhandledRejectionHandler.
  destruct s as [[o oe our fe fr] [ge gr lim]]. cbn.
  destruct fe, fr; reflexivity.
Qed.

(** X10. [setupOnce] touches a hook only when its option is on: with the
    option off, the slot of the global object, the captured handler and the
    installed-flag of that hook are as before; with the option on they are
    what the install operation makes them.  The options themselves are not
    changed. *)
Theorem setupOnce_respects_options (s : State) :
  onerror_hook_state (snd (setupOnce s))
  = (if opt_onerror (_options (instance s))
     then onerror_hook_state (_installGlobalOnErrorHandler s)
     else onerror_hook_state s)
  /\ onunhandledrejection_hook_state (snd (setupOnce s))
     = (if opt_onunhandledrejection (_options (instance s))
        then onunhandledrejection_hook_state (_installGlobalOnUnhandledRejectionHandler s)
        else onunhandledrejection_hook_state s)
  /\ _options (instance (snd (setupOnce s))) = _options (instance s).
Proof.
  destruct s as [[[oe or] he hr fe fr] [ge gr lim]].
  destruct oe, or, fe, fr; repeat split; reflexivity.
Qed.

(** X11. A second [setupOnce] changes nothing in the state, and makes the
    same calls as the first: the "attached" messages are logged again
    although nothing is attached. *)
Theorem setupOnce_twice (s : State) :
  snd (setupOnce (snd (setupOnce s))) = snd (setupOnce s)
  /\ fst (setupOnce (snd (setupOnce s))) = fst (setupOnce s).
Proof.
  destruct s as [[[oe or] he hr fe fr] [ge gr lim]].
  destruct oe, or, fe, fr; split; reflexivity.
Qed.

(** ** More on event building *)

Section Builder.

Context {C : Collaborators}.
Variable env : Env.

(** X13. The trace event building returns needs no repair: its message is
    a string or its mechanism is "onunhandledrejection", a repair leaves it
    as it is, and so does any further event building. *)
Theorem built_trace_needs_no_repair
        (stacktrace : StackTrace) (handler : string) (error : Value)
        (event : Event) (stacktrace' : StackTrace) :
  _eventFromGlobalHandler env stacktrace handler error = Ok (event, stacktrace') ->
  message_kept stacktrace' = true
  /\ repair_message stacktrace' = Ok stacktrace'
  /\ (forall handler' error' event' stacktrace'',
         _eventFromGlobalHandler env stacktrace' handler' error'
         = Ok (event', stacktrace'') ->
         stacktrace'' = stacktrace').
Proof.
  intros H. apply _eventFromGlobalHandler_trace in H.
  assert (K : message_kept stacktrace' = true).
  { destruct (message_kept stacktrace) eqn:K0.
    - rewrite (repair_message_kept stacktrace K0) in H.
      injection H as <-. exact K0.
    - unfold message_kept. apply orb_true_iff. left.
      destruct (repair_message_string stacktrace K0 H) as [(e & m & _ & _ & ->)| ->];
        reflexivity. }
  split; [exact K|]. split; [now apply repair_message_kept|].
  intros h' e' ev' st'' H'. apply _eventFromGlobalHandler_trace in H'.
  rewrite (repair_message_kept stacktrace' K) in H'. now inversion H'.
Qed.

(** X14. Unless the handler is "onunhandledrejection" and the mode is
    "failed", event building does not look at the failure it is given: any
    two failures give the same result. *)
Theorem failure_only_used_on_degraded_path
        (stacktrace : StackTrace) (handler : string) (error error' : Value) :
  (handler =? "onunhandledrejection") && (st_mode stacktrace =? "failed") = false ->
  _eventFromGlobalHandler env stacktrace handler error
  = _eventFromGlobalHandler env stacktrace handler error'.
Proof.
  intros H. unfold _eventFromGlobalHandler.
  destruct (repair_message stacktrace) as [st1|x] eqn:R; [|reflexivity].
  cbn [rbind]. rewrite (repair_message_mode stacktrace R), H. reflexivity.
Qed.

(** X15. The length the fallback value is truncated to is the client's
    [maxValueLength] when there is a client, the option is set and it is
    not 0; it is 250 when there is no client, the option is not set, or it
    is 0; so it is never 0. *)
Theorem maxValueLength_uses_client_option :
  (forall n, client_maxValueLength env = Some (Some n) -> n <> 0%Z ->
             maxValueLength env = n)
  /\ (client_maxValueLength env = Some (Some 0%Z)
      \/ client_maxValueLength env = Some None
      \/ client_maxValueLength env = None ->
      maxValueLength env = 250%Z)
  /\ maxValueLength env <> 0%Z.
Proof.
  unfold maxValueLength. split; [|split].
  - intros n -> Hn. apply Z.eqb_neq in Hn. now rewrite Hn.
  - intros [-> | [-> | ->]]; reflexivity.
  - destruct (client_maxValueLength env) as [[n|]|]; try discriminate.
    destruct (n =? 0)%Z eqn:E; [discriminate | now apply Z.eqb_neq].
Qed.

End Builder.

(** ** The statements with hypotheses, at work *)

Lemma onerror_reports_string_message_witness :
  List.length
    (submissions
       (effects (onerror_wrapper (C := Sample.collaborators) Sample.env
                                 Sample.installed Sample.script_error_call)))
  = 1
  /\ completion (onerror_wrapper (C := Sample.collaborators) Sample.env
                                 Sample.installed Sample.script_error_call)
     = Ok (VBool true).
Proof.
  destruct (@onerror_reports_string_message
              Sample.collaborators Sample.env Sample.installed
              Sample.script_error_call "Script error."
              eq_refl eq_refl eq_refl eq_refl) as (event & _ & E).
  rewrite E. split; reflexivity.
Defined.

Lemma onerror_throws_on_missing_message_witness :
  exists x,
    isError x = true
    /\ onerror_wrapper (C := Sample.collaborators) Sample.env Sample.installed []
       = ([], Throw x).
Proof.
  exact (@onerror_throws_on_missing_message
           Sample.collaborators Sample.env Sample.installed []
           eq_refl eq_refl (or_introl eq_refl) eq_refl).
Defined.

Lemma inactive_onerror_hook_is_transparent_witness :
  trigger_onerror (C := Sample.collaborators)
                  (with_hasIntegration false Sample.env)
                  (_installGlobalOnErrorHandler Sample.fresh)
                  Sample.script_error_call
  = trigger_onerror (C := Sample.collaborators) Sample.env Sample.fresh
                    Sample.script_error_call.
Proof.
  exact (@inactive_onerror_hook_is_transparent
           Sample.collaborators Sample.env Sample.fresh 0
           Sample.script_error_call eq_refl eq_refl).
Defined.

Lemma built_trace_needs_no_repair_witness :
  message_kept (set_message Sample.event_trace (VStr "No error message")) = true
  /\ repair_message (set_message Sample.event_trace (VStr "No error message"))
     = Ok (set_message Sample.event_trace (VStr "No error message")).
Proof.
  destruct (@built_trace_needs_no_repair
              Sample.collaborators Sample.env Sample.event_trace "onerror" VUndefined
              _ (set_message Sample.event_trace (VStr "No error message")) eq_refl)
    as (K & R & _).
  split; [exact K | exact R].
Defined.

Lemma failure_only_used_on_degraded_path_witness :
  _eventFromGlobalHandler (C := Sample.collaborators) Sample.env
                          (Sample.rejected (VNum 42)) "onerror" (VNum 42)
  = _eventFromGlobalHandler (C := Sample.collaborators) Sample.env
                            (Sample.rejected (VNum 42)) "onerror" VNull.
Proof.
  exact (@failure_only_used_on_degraded_path
           Sample.collaborators Sample.env (Sample.rejected (VNum 42)) "onerror"
           (VNum 42) VNull eq_refl).
Defined.

Lemma rejection_submission_depends_on_reason_only_witness :
  submissions
    (effects (onunhandledrejection_wrapper
                (C := Sample.collaborators) Sample.env Sample.installed
                [Sample.rejection_event (VNum 42)]))
  = submissions
      (effects (onunhandledrejection_wrapper
                  (C := Sample.collaborators) Sample.env (constructor None)
                  [VNum 42; VStr "more"])).
Proof.
  exact (@rejection_submission_depends_on_reason_only
           Sample.collaborators Sample.env Sample.installed (constructor None)
           [Sample.rejection_event (VNum 42)] [VNum 42; VStr "more"] eq_refl).
Defined.

Lemma symbol_rejection_throws_witness :
  exists x,
    isError x = true
    /\ onunhandledrejection_wrapper
         (C := Sample.collaborators) Sample.env Sample.installed
         [Sample.rejection_event (VSymbol "token")]
       = ([], Throw x).
Proof.
  exact (@symbol_rejection_throws
           Sample.collaborators Sample.env Sample.installed
           [Sample.rejection_event (VSymbol "token")] "token"
           eq_refl eq_refl eq_refl eq_refl).
Defined.

Lemma onerror_submission_depends_on_extracted_values_witness :
  submissions
    (effects (onerror_wrapper (C := Sample.collaborators) Sample.env
                              Sample.installed Sample.error_event_call))
  = submissions
      (effects (onerror_wrapper (C := Sample.collaborators) Sample.env
                                (constructor None) Sample.error_call)).
Proof.
  exact (@onerror_submission_depends_on_extracted_values
           Sample.collaborators Sample.env Sample.installed (constructor None)
           Sample.error_event_call Sample.error_call
           eq_refl eq_refl eq_refl eq_refl eq_refl).
Defined.

Lemma maxValueLength_uses_client_option_witness :
  maxValueLength Sample.env_10 = 10%Z /\ maxValueLength Sample.env = 250%Z.
Proof.
  split.
  - apply (proj1 (maxValueLength_uses_client_option Sample.env_10) 10%Z eq_refl).
    discriminate.
  - apply (proj1 (proj2 (maxValueLength_uses_client_option Sample.env))).
    right. left. reflexivity.
Defined.

(** ** A symbol as the reason *)

(** An error object lists no keys: its [name] and [message] are hidden. *)
Example error_has_no_keys : Js.keys (TypeError "x is not a function") = [].
Proof. reflexivity. Qed.

(** C8 on the code. A symbol is a primitive, so on the path of a rejection
    with an incomplete trace the reason is put into the template string: that
    throws, and event building returns no event, whatever the trace
    holds. *)
Theorem symbol_reason_builds_no_event
        {C : Collaborators} (env : Env)
        (message name original : Value) (stack : list Frame)
        (description : string) :
  isPrimitive (VSymbol description) = true
  /\ _eventFromGlobalHandler
       env
       {| st_mechanism := "onunhandledrejection";
          st_message := message;
          st_mode := "failed";
          st_name := name;
          st_stack := stack;
          st_original := original |}
       "onunhandledrejection" (VSymbol description)
     = Throw (TypeError "Cannot convert a Symbol value to a string").
Proof.
  split; [reflexivity|].
  unfold _eventFromGlobalHandler.
  rewrite repair_message_kept by apply orb_true_r.
  reflexivity.
Qed.

(** ** What happens to the trace, from its computation to the submission *)





